(** * multi_stop_route_cost.py: a multi-stop route through ordered stops

    A shallow embedding of the QGIS console script
    [multi_stop_route_cost.py].  The script looks two layers up in the
    current project, sorts the features of the stops layer by an order
    field, asks the processing framework for a point-to-point path between
    every consecutive pair of stops, merges the paths and adds the merged
    layer to the project.

    The script is straight-line imperative code over external services.
    It is modelled in a small monad that threads a chronological trace of
    the externally visible actions ([print], [processing.run],
    [addMapLayer]) and propagates Python exceptions.  The QGIS project
    registry, the two processing algorithms and the formatting of floats
    are external: they are the fields of a [World]. *)

From Stdlib Require Import List String Ascii ZArith Lia Bool Arith.
From Stdlib Require Import Sorting.Sorted Sorting.Permutation.
From Stdlib Require Import Structures.OrdersEx Classes.RelationClasses.
From Stdlib Require Import Numbers.DecimalString.
From Stdlib Require Import Floats.PrimFloat.
Import ListNotations.

Local Open Scope string_scope.
Local Open Scope list_scope.

(** ** Python values and exceptions *)

(** The order values that are modelled: integers and strings.  A layer
    can hold other types (floats, dates, NULL); what is proved about the
    sort is stated for keys of these two types. *)
Inductive PyVal : Type :=
| PInt (z : Z)
| PStr (s : string).

(** The exceptions that reach the top level of the script.  [Exception]
    is what the script raises itself, with its message; the others come
    from the interpreter ([TypeError], whose message is left out,
    [KeyError], [IndexError]) or from the processing framework
    ([QgsProcessingException]). *)
Inductive exn : Type :=
| Exception (msg : string)
| TypeError
| KeyError (key : string)
| IndexError
| QgsProcessingException (msg : string).

Inductive result (A : Type) : Type :=
| Ok (a : A)
| Raise (e : exn).
Arguments Ok {A} a.
Arguments Raise {A} e.

Definition PyVal_eqb (a b : PyVal) : bool :=
  match a, b with
  | PInt x, PInt y => Z.eqb x y
  | PStr x, PStr y => String.eqb x y
  | _, _ => false
  end.

(** Python's [a < b]: integers by value, strings lexicographically, and a
    [TypeError] between an integer and a string. *)
Definition py_lt (a b : PyVal) : result bool :=
  match a, b with
  | PInt x, PInt y => Ok (Z.ltb x y)
  | PStr x, PStr y => Ok (String.ltb x y)
  | PInt _, PStr _ | PStr _, PInt _ => Raise TypeError
  end.

(** ** [list.sort(key=...)]

    The builtin computes the key of every element first, then sorts the
    keyed elements with [<] on the keys only.  It is an insertion of each
    element, in list order, into the already sorted prefix, after every
    element that is not greater: the binary insertion sort CPython runs on
    short lists, with a linear scan for the insertion point.  Any exception
    of the key function or of [<] aborts the sort. *)
Section ListSort.
Context {A : Type}.
Variable key : A -> result PyVal.

Fixpoint compute_keys (l : list A) : result (list (PyVal * A)) :=
  match l with
  | [] => Ok []
  | a :: l' =>
      match key a with
      | Raise e => Raise e
      | Ok k =>
          match compute_keys l' with
          | Raise e => Raise e
          | Ok kl => Ok ((k, a) :: kl)
          end
      end
  end.

Fixpoint insert (kx : PyVal * A) (sorted : list (PyVal * A))
  : result (list (PyVal * A)) :=
  match sorted with
  | [] => Ok [kx]
  | ky :: sorted' =>
      match py_lt (fst kx) (fst ky) with
      | Raise e => Raise e
      | Ok true => Ok (kx :: sorted)
      | Ok false =>
          match insert kx sorted' with
          | Raise e => Raise e
          | Ok r => Ok (ky :: r)
          end
      end
  end.

Fixpoint insert_all (sorted rest : list (PyVal * A))
  : result (list (PyVal * A)) :=
  match rest with
  | [] => Ok sorted
  | kx :: rest' =>
      match insert kx sorted with
      | Raise e => Raise e
      | Ok sorted' => insert_all sorted' rest'
      end
  end.

Definition list_sort (l : list A) : result (list A) :=
  match compute_keys l with
  | Raise e => Raise e
  | Ok kl =>
      match insert_all [] kl with
      | Raise e => Raise e
      | Ok sorted => Ok (map snd sorted)
      end
  end.
End ListSort.

(** ** QGIS data *)

Record QgsCoordinateReferenceSystem : Type := mkCrs { authid : string }.

(** A feature of a point layer: its attributes by field name and the
    [(x, y)] of [geometry().asPoint()].  Every modelled stop has a single
    point as geometry; a feature on which [asPoint()] raises is not
    modelled. *)
Record QgsFeature : Type := mkFeature {
  attributes : list (string * PyVal);
  asPoint : float * float
}.

Record QgsVectorLayer : Type := mkLayer {
  name : string;
  fields : list string;
  getFeatures : list QgsFeature;
  crs : QgsCoordinateReferenceSystem
}.

Definition setName (l : QgsVectorLayer) (n : string) : QgsVectorLayer :=
  mkLayer n (fields l) (getFeatures l) (crs l).

(** [fields().indexFromName(n)]: the position of [n], or [-1]. *)
Fixpoint indexFromName (fs : list string) (n : string) : Z :=
  match fs with
  | [] => (-1)%Z
  | f :: fs' =>
      if String.eqb f n then 0%Z
      else
        let i := indexFromName fs' n in
        if Z.eqb i (-1) then (-1)%Z else Z.succ i
  end.

(** [f[n]]: the attribute called [n], a [KeyError] if there is none. *)
Fixpoint lookup_attribute (attrs : list (string * PyVal)) (n : string)
  : result PyVal :=
  match attrs with
  | [] => Raise (KeyError n)
  | (k, v) :: attrs' =>
      if String.eqb k n then Ok v else lookup_attribute attrs' n
  end.

Definition getitem (f : QgsFeature) (n : string) : result PyVal :=
  lookup_attribute (attributes f) n.

(** ** Requests to the processing framework and the trace *)

(** The dictionary passed to ["qgis:shortestpathpointtopoint"]. *)
Record PathParams : Type := mkPathParams {
  INPUT : QgsVectorLayer;
  STRATEGY : Z;
  SPEED_FIELD : string;
  START_POINT : string;
  END_POINT : string;
  OUTPUT : string
}.

(** The dictionary passed to ["native:mergevectorlayers"]. *)
Record MergeParams : Type := mkMergeParams {
  LAYERS : list QgsVectorLayer;
  CRS : QgsCoordinateReferenceSystem;
  MERGE_OUTPUT : string
}.

(** What the script does to the outside, in the order it does it. *)
Inductive Event : Type :=
| Print (line : string)
| RunShortestPath (params : PathParams)
| RunMerge (params : MergeParams)
| AddMapLayer (layer : QgsVectorLayer).

Definition Trace : Type := list Event.

(** The external collaborators.  The two algorithms may answer from the
    history of the run; they return the ["OUTPUT"] entry of their result
    or raise. *)
Record World : Type := mkWorld {
  mapLayersByName : string -> list QgsVectorLayer;
  float_str : float -> string;
  shortestpathpointtopoint : Trace -> PathParams -> result QgsVectorLayer;
  mergevectorlayers : Trace -> MergeParams -> result QgsVectorLayer
}.

(** The three variables of the CONFIGURATION block of the script. *)
Record Config : Type := mkConfig {
  network_layer_name : string;
  stops_layer_name : string;
  order_field_name : string
}.

Definition default_config : Config :=
  mkConfig "my_road_network" "my_stops_points" "order_id".

(** ** The script monad: a trace and an exception *)

Definition M (A : Type) : Type := Trace -> result A * Trace.

Definition ret {A} (a : A) : M A := fun t => (Ok a, t).

Definition raise {A} (e : exn) : M A := fun t => (Raise e, t).

Definition bind {A B} (m : M A) (k : A -> M B) : M B :=
  fun t =>
    match m t with
    | (Ok a, t') => k a t'
    | (Raise e, t') => (Raise e, t')
    end.

Notation "x <- m ;; k" := (bind m (fun x => k))
  (at level 61, m at next level, right associativity).
Notation "m ;;; k" := (bind m (fun _ => k))
  (at level 61, right associativity).

Definition emit (e : Event) : M unit := fun t => (Ok tt, t ++ [e]).

Definition print (line : string) : M unit := emit (Print line).

Definition processing_run_shortestpath (w : World) (params : PathParams)
  : M QgsVectorLayer :=
  fun t => (shortestpathpointtopoint w t params, t ++ [RunShortestPath params]).

Definition processing_run_merge (w : World) (params : MergeParams)
  : M QgsVectorLayer :=
  fun t => (mergevectorlayers w t params, t ++ [RunMerge params]).

(** [str(n)] of a length or an index. *)
Definition str_nat (n : nat) : string :=
  NilEmpty.string_of_uint (Nat.to_uint n).

(** [l[i]] *)
Definition subscript {A} (l : list A) (i : nat) : M A :=
  match nth_error l i with
  | Some a => ret a
  | None => raise IndexError
  end.

(** ** The script *)

(** *** 1. Fetch and sort stop points from the layer *)

Definition sort_stops_features (cfg : Config) (stops_features : list QgsFeature)
  : M (list QgsFeature) :=
  match list_sort (fun f => getitem f (order_field_name cfg)) stops_features with
  | Ok sorted => ret sorted
  | Raise e =>
      print ("Could not sort features. Ensure the '" ++ order_field_name cfg
             ++ "' field contains sortable values (like numbers).") ;;;
      raise e
  end.

(** Both layers are looked up by name; the first match is taken. *)
Definition find_layers (cfg : Config) (w : World)
  : M (QgsVectorLayer * QgsVectorLayer) :=
  match mapLayersByName w (stops_layer_name cfg) with
  | [] => raise (Exception ("Stops layer not found: '" ++ stops_layer_name cfg ++ "'"))
  | stops_layer :: _ =>
      match mapLayersByName w (network_layer_name cfg) with
      | [] => raise (Exception ("Network layer not found: '"
                                ++ network_layer_name cfg ++ "'"))
      | network_layer :: _ => ret (stops_layer, network_layer)
      end
  end.

(** The field check, the sort, the coordinates and the stop count. *)
Definition load_stops (cfg : Config) (stops_layer : QgsVectorLayer)
  : M (list (float * float)) :=
  if Z.eqb (indexFromName (fields stops_layer) (order_field_name cfg)) (-1)
  then raise (Exception ("Order field '" ++ order_field_name cfg
                         ++ "' not found in layer '" ++ stops_layer_name cfg ++ "'"))
  else
    stops_features <- sort_stops_features cfg (getFeatures stops_layer) ;;
    let sorted_stops_coords := map asPoint stops_features in
    if Nat.ltb (List.length sorted_stops_coords) 2
    then raise (Exception
           "Fewer than two stops found in the layer. Cannot calculate a route.")
    else
      print ("Found and sorted " ++ str_nat (List.length sorted_stops_coords)
             ++ " stops from layer '" ++ stops_layer_name cfg ++ "'.") ;;;
      ret sorted_stops_coords.

(** *** 2. Calculate the route segments *)

Definition point_str (w : World) (coords : float * float)
  (stops_crs : QgsCoordinateReferenceSystem) : string :=
  float_str w (fst coords) ++ "," ++ float_str w (snd coords)
  ++ " [" ++ authid stops_crs ++ "]".

Definition path_params (w : World) (network_layer : QgsVectorLayer)
  (stops_crs : QgsCoordinateReferenceSystem)
  (start_coords end_coords : float * float) : PathParams :=
  {| INPUT := network_layer;
     STRATEGY := 1;
     SPEED_FIELD := "cost";
     START_POINT := point_str w start_coords stops_crs;
     END_POINT := point_str w end_coords stops_crs;
     OUTPUT := "memory:" |}.

(** The body of [for i in range(len(sorted_stops_coords) - 1)], with
    [remaining] iterations still to run from index [i]. *)
Fixpoint segment_loop (w : World) (network_layer : QgsVectorLayer)
  (stops_crs : QgsCoordinateReferenceSystem)
  (sorted_stops_coords : list (float * float))
  (remaining i : nat) (route_segments : list QgsVectorLayer)
  : M (list QgsVectorLayer) :=
  match remaining with
  | O => ret route_segments
  | S remaining' =>
      start_coords <- subscript sorted_stops_coords i ;;
      end_coords <- subscript sorted_stops_coords (i + 1) ;;
      print ("  Calculating segment " ++ str_nat (i + 1) ++ ": from stop "
             ++ str_nat (i + 1) ++ " to stop " ++ str_nat (i + 2)) ;;;
      let params := path_params w network_layer stops_crs start_coords end_coords in
      result <- processing_run_shortestpath w params ;;
      segment_loop w network_layer stops_crs sorted_stops_coords
        remaining' (S i) (route_segments ++ [result])
  end.

Definition calculate_route_segments (w : World)
  (stops_layer network_layer : QgsVectorLayer)
  (sorted_stops_coords : list (float * float)) : M (list QgsVectorLayer) :=
  let stops_crs := crs stops_layer in
  print "Starting multi-stop shortest path calculation..." ;;;
  route_segments <-
    segment_loop w network_layer stops_crs sorted_stops_coords
      (List.length sorted_stops_coords - 1) 0 [] ;;
  print "...calculation finished." ;;;
  ret route_segments.

(** *** 3. Merge segments and add to project *)

Definition merge_and_add_to_project (w : World) (network_layer : QgsVectorLayer)
  (route_segments : list QgsVectorLayer) : M unit :=
  match route_segments with
  | _ :: _ =>
      print "Merging route segments..." ;;;
      let merge_params :=
        {| LAYERS := route_segments;
           CRS := crs network_layer;
           MERGE_OUTPUT := "memory:" |} in
      final_route_layer <- processing_run_merge w merge_params ;;
      let final_route_layer := setName final_route_layer "Multi-Stop Route (from Layer)" in
      emit (AddMapLayer final_route_layer) ;;;
      print "Multi-stop route created and added to the project as 'Multi-Stop Route (from Layer)'."
  | [] => print "No route segments were calculated."
  end.

(** *** The whole script *)

(** Everything after the two lookups. *)
Definition route_between_stops (cfg : Config) (w : World)
  (stops_layer network_layer : QgsVectorLayer) : M unit :=
  sorted_stops_coords <- load_stops cfg stops_layer ;;
  route_segments <-
    calculate_route_segments w stops_layer network_layer sorted_stops_coords ;;
  merge_and_add_to_project w network_layer route_segments.

Definition script (cfg : Config) (w : World) : M unit :=
  layers <- find_layers cfg w ;;
  route_between_stops cfg w (fst layers) (snd layers).

(** A run starts with an empty trace. *)
Definition run (cfg : Config) (w : World) : result unit * Trace :=
  script cfg w [].

(** ** Observations on a trace *)

Definition path_requests (t : Trace) : list PathParams :=
  flat_map (fun e => match e with RunShortestPath p => [p] | _ => [] end) t.

Definition merge_requests (t : Trace) : list MergeParams :=
  flat_map (fun e => match e with RunMerge p => [p] | _ => [] end) t.

Definition published (t : Trace) : list QgsVectorLayer :=
  flat_map (fun e => match e with AddMapLayer l => [l] | _ => [] end) t.

(** ** Vocabulary of the statements *)

(** [a <= b] as the sort sees it: [b < a] is evaluated and is false. *)
Definition py_le (a b : PyVal) : Prop := py_lt b a = Ok false.

(** Both integers, or both strings. *)
Definition same_type (a b : PyVal) : bool :=
  match a, b with
  | PInt _, PInt _ | PStr _, PStr _ => true
  | _, _ => false
  end.

(** The order of the keyed elements, and the elements whose key is [v]. *)
Definition keyed_le {A} (p q : PyVal * A) : Prop := py_le (fst p) (fst q).

Definition keyed_is {A} (v : PyVal) (p : PyVal * A) : bool := PyVal_eqb (fst p) v.

Definition keyed_by {A} (key : A -> result PyVal) (p : PyVal * A) : Prop :=
  key (snd p) = Ok (fst p).

Definition pairwise_same_type {A} (kl : list (PyVal * A)) : Prop :=
  forall p q, In p kl -> In q kl -> same_type (fst p) (fst q) = true.

(** [x] may stand before [y]: both keys exist and [key y < key x] is false. *)
Definition key_le {A} (key : A -> result PyVal) (x y : A) : Prop :=
  exists a b, key x = Ok a /\ key y = Ok b /\ py_le a b.

(** The elements whose key is [v]. *)
Definition key_is {A} (key : A -> result PyVal) (v : PyVal) (x : A) : bool :=
  match key x with
  | Ok k => PyVal_eqb k v
  | Raise _ => false
  end.

(** Every element has a key and any two keys have the same type. *)
Definition keys_comparable {A} (key : A -> result PyVal) (l : list A) : Prop :=
  forall x y, In x l -> In y l ->
    exists a b, key x = Ok a /\ key y = Ok b /\ same_type a b = true.

(** The request of iteration [j]: from stop [j] to stop [j + 1]. *)
Definition segment_request (w : World) (network_layer : QgsVectorLayer)
  (stops_crs : QgsCoordinateReferenceSystem)
  (sorted_stops_coords : list (float * float)) (j : nat) : PathParams :=
  path_params w network_layer stops_crs
    (nth j sorted_stops_coords (0%float, 0%float))
    (nth (j + 1) sorted_stops_coords (0%float, 0%float)).

(** The line printed by iteration [j]. *)
Definition segment_notice (j : nat) : Event :=
  Print ("  Calculating segment " ++ str_nat (j + 1) ++ ": from stop "
         ++ str_nat (j + 1) ++ " to stop " ++ str_nat (j + 2)).

(** The line printed once the stops are loaded. *)
Definition found_notice (cfg : Config) (sorted : list QgsFeature) : Event :=
  Print ("Found and sorted " ++ str_nat (List.length sorted)
         ++ " stops from layer '" ++ stops_layer_name cfg ++ "'.").

(** The dictionary of the merge request for [route_segments]. *)
Definition merge_params_of (network_layer : QgsVectorLayer)
  (route_segments : list QgsVectorLayer) : MergeParams :=
  {| LAYERS := route_segments; CRS := crs network_layer; MERGE_OUTPUT := "memory:" |}.

(** The path engine answers request [p] with layer [l] at some point. *)
Definition answers (w : World) (p : PathParams) (l : QgsVectorLayer) : Prop :=
  exists t, shortestpathpointtopoint w t p = Ok l.

(** [m] issues no merge request and publishes nothing. *)
Definition quiet {A} (m : M A) : Prop :=
  forall t, merge_requests (snd (m t)) = merge_requests t
            /\ published (snd (m t)) = published t.

(** [m] asks the path engine nothing. *)
Definition requestless {A} (m : M A) : Prop :=
  forall t, path_requests (snd (m t)) = path_requests t.

(** [m] publishes nothing when it ends in an exception. *)
Definition publishes_only_on_success {A} (m : M A) : Prop :=
  forall t e, fst (m t) = Raise e -> published (snd (m t)) = published t.

(** The entries of a request that do not depend on the stops. *)
Definition fixed_settings (p : PathParams) : Prop :=
  STRATEGY p = 1%Z /\ SPEED_FIELD p = "cost" /\ OUTPUT p = "memory:".

(** [m] only adds path requests that satisfy [P]. *)
Definition requests_keep {A} (P : PathParams -> Prop) (m : M A) : Prop :=
  forall t, Forall P (path_requests t) -> Forall P (path_requests (snd (m t))).


(** What iteration [j] of the loop does to the outside: its progress line,
    then its request. *)
Definition segment_events (w : World) (network_layer : QgsVectorLayer)
  (stops_crs : QgsCoordinateReferenceSystem)
  (sorted_stops_coords : list (float * float)) (j : nat) : list Event :=
  [segment_notice j;
   RunShortestPath (segment_request w network_layer stops_crs sorted_stops_coords j)].

(** Two elements have keys of different types. *)
Definition keys_mixed {A} (key : A -> result PyVal) (l : list A) : Prop :=
  exists x y a b,
    In x l /\ In y l /\ key x = Ok a /\ key y = Ok b /\ same_type a b = false.

(** Every element has a key. *)
Definition keys_present {A} (key : A -> result PyVal) (l : list A) : Prop :=
  forall x, In x l -> exists a, key x = Ok a.

(** The name under which the route is published. *)
Definition route_name : string := "Multi-Stop Route (from Layer)".

(** What a merge that answers [out] does to the outside. *)
Definition merge_events (network_layer : QgsVectorLayer)
  (route_segments : list QgsVectorLayer) (out : QgsVectorLayer) : list Event :=
  [Print "Merging route segments...";
   RunMerge (merge_params_of network_layer route_segments);
   AddMapLayer (setName out route_name);
   Print "Multi-stop route created and added to the project as 'Multi-Stop Route (from Layer)'."].

(** The trace of a run at the moment it issues the request of iteration
    [j]: the two opening lines, the events of the iterations before [j] and
    the progress line of [j]. *)
Definition request_history (cfg : Config) (w : World)
  (stops_layer network_layer : QgsVectorLayer) (sorted : list QgsFeature)
  (j : nat) : Trace :=
  found_notice cfg sorted
  :: Print "Starting multi-stop shortest path calculation..."
  :: flat_map (segment_events w network_layer (crs stops_layer) (map asPoint sorted))
       (seq 0 j)
  ++ [segment_notice j].

(** The trace of a run at the moment it issues the merge request: the two
    opening lines, the events of all iterations, the "finished" line and
    the "Merging" line. *)
Definition merge_history (cfg : Config) (w : World)
  (stops_layer network_layer : QgsVectorLayer) (sorted : list QgsFeature) : Trace :=
  found_notice cfg sorted
  :: Print "Starting multi-stop shortest path calculation..."
  :: flat_map (segment_events w network_layer (crs stops_layer) (map asPoint sorted))
       (seq 0 (List.length sorted - 1))
  ++ [Print "...calculation finished."; Print "Merging route segments..."].

(** ** A concrete project

    Three stops read in the order 2, 1, 3 of their [order_id], on a
    one-layer road network. *)

Definition example_float_str (f : float) : string :=
  if PrimFloat.eqb f 0 then "0.0"
  else if PrimFloat.eqb f 5 then "5.0"
  else if PrimFloat.eqb f 10 then "10.0"
  else "nan".

Definition stop (order : PyVal) (x y : float) : QgsFeature :=
  mkFeature [("order_id", order)] (x, y).

Definition example_stops : QgsVectorLayer :=
  mkLayer "my_stops_points" ["order_id"]
    [stop (PInt 2) 0 0; stop (PInt 1) 10 0; stop (PInt 3) 5 5]
    (mkCrs "EPSG:4326").

Definition example_network : QgsVectorLayer :=
  mkLayer "my_road_network" ["cost"] [] (mkCrs "EPSG:3857").

Definition example_registry (layers : list QgsVectorLayer) (n : string)
  : list QgsVectorLayer :=
  filter (fun l => String.eqb (name l) n) layers.

(** A path engine that answers every request with a layer named after
    the two end points. *)
Definition example_engine (_ : Trace) (p : PathParams) : result QgsVectorLayer :=
  Ok (mkLayer (START_POINT p ++ " -> " ++ END_POINT p) [] [] (crs (INPUT p))).

(** A merge that concatenates the features of its layers in their order. *)
Definition example_merge (_ : Trace) (p : MergeParams) : result QgsVectorLayer :=
  Ok (mkLayer "merged" [] (flat_map getFeatures (LAYERS p)) (CRS p)).

Definition example_world : World :=
  mkWorld (example_registry [example_stops; example_network])
    example_float_str example_engine example_merge.

(** ** More concrete projects *)

(** Four stops, two of them with order 1 and two with order 2. *)
Definition tied_stops : list QgsFeature :=
  [stop (PInt 2) 0 0; stop (PInt 1) 10 0; stop (PInt 2) 5 5; stop (PInt 1) 5 0].

(** A stops layer without the order field, whose features would not sort. *)
Definition unordered_stops : QgsVectorLayer :=
  mkLayer "my_stops_points" ["label"]
    [mkFeature [("label", PStr "a")] (0%float, 0%float);
     mkFeature [("label", PInt 3)] (5%float, 5%float)]
    (mkCrs "EPSG:4326").

Definition unordered_world : World :=
  mkWorld (example_registry [unordered_stops; example_network])
    example_float_str example_engine example_merge.

(** A stops layer with one stop. *)
Definition single_stop : QgsVectorLayer :=
  mkLayer "my_stops_points" ["order_id"] [stop (PInt 1) 5 5] (mkCrs "EPSG:4326").

Definition single_stop_world : World :=
  mkWorld (example_registry [single_stop; example_network])
    example_float_str example_engine example_merge.

(** A project with two layers of each name. *)
Definition crowded_world : World :=
  mkWorld (example_registry
             [example_stops; single_stop; example_network;
              mkLayer "my_road_network" [] [] (mkCrs "EPSG:2180")])
    example_float_str example_engine example_merge.

(** A path engine that finds no path out of the stop at [(0, 0)]. *)
Definition broken_engine (_ : Trace) (p : PathParams) : result QgsVectorLayer :=
  if String.eqb (START_POINT p) "0.0,0.0 [EPSG:4326]"
  then Raise (QgsProcessingException "no route")
  else Ok (mkLayer (START_POINT p ++ " -> " ++ END_POINT p) [] [] (crs (INPUT p))).

Definition broken_world : World :=
  mkWorld (example_registry [example_stops; example_network])
    example_float_str broken_engine example_merge.

(** A project without layers. *)
Definition empty_world : World :=
  mkWorld (example_registry []) example_float_str example_engine example_merge.

(** A stops layer whose order field holds a string and an integer. *)
Definition mixed_stops : QgsVectorLayer :=
  mkLayer "my_stops_points" ["order_id"]
    [stop (PStr "a") 0 0; stop (PInt 3) 5 5] (mkCrs "EPSG:4326").

Definition mixed_world : World :=
  mkWorld (example_registry [mixed_stops; example_network])
    example_float_str example_engine example_merge.

(** A project made for a configuration: whatever the three names are, the
    lookups find a layer that has the order field and two stops. *)
Definition two_stops_for (cfg : Config) : QgsVectorLayer :=
  mkLayer (stops_layer_name cfg) [order_field_name cfg]
    [mkFeature [(order_field_name cfg, PInt 1)] (0%float, 0%float);
     mkFeature [(order_field_name cfg, PInt 2)] (5%float, 5%float)]
    (mkCrs "EPSG:4326").

Definition world_for (cfg : Config) : World :=
  mkWorld (fun _ => [two_stops_for cfg]) example_float_str example_engine example_merge.

(** The three stops of the example, read in another order. *)
Definition reread_stops : list QgsFeature :=
  [stop (PInt 3) 5 5; stop (PInt 2) 0 0; stop (PInt 1) 10 0].

(** A stops layer whose features are read in route order. *)
Definition ordered_stops : QgsVectorLayer :=
  mkLayer "my_stops_points" ["order_id"]
    [stop (PInt 1) 10 0; stop (PInt 2) 0 0; stop (PInt 2) 5 5]
    (mkCrs "EPSG:4326").

(** A merge that always fails. *)
Definition broken_merge (_ : Trace) (_ : MergeParams) : result QgsVectorLayer :=
  Raise (QgsProcessingException "merge failed").

Definition unmerged_world : World :=
  mkWorld (example_registry [example_stops; example_network])
    example_float_str example_engine broken_merge.

(** A project whose only layer is the stops layer without the order field. *)
Definition unordered_roadless_world : World :=
  mkWorld (example_registry [unordered_stops])
    example_float_str example_engine example_merge.

(** A project with stops but no road network. *)
Definition roadless_world : World :=
  mkWorld (example_registry [example_stops])
    example_float_str example_engine example_merge.

(** * Lemmas *)

(** ** Properties of [<] on Python values *)

Lemma string_compare_as_OT (a b : string) :
  String.compare a b = String_as_OT.compare a b.
Proof.
  revert b; induction a as [|c a IH]; intros [|d b]; simpl; reflexivity.
Qed.

Lemma string_ltb_lt (a b : string) :
  String.ltb a b = true <-> String_as_OT.lt a b.
Proof.
  unfold String.ltb, String_as_OT.lt. rewrite string_compare_as_OT.
  destruct (String_as_OT.compare a b); split; congruence.
Qed.

Lemma string_ltb_irrefl (a : string) : String.ltb a a = false.
Proof.
  destruct (String.ltb a a) eqn:E; [|reflexivity].
  apply string_ltb_lt in E.
  exfalso. exact (StrictOrder_Irreflexive (R:=String_as_OT.lt) a E).
Qed.

Lemma string_ltb_trans (a b c : string) :
  String.ltb a b = true -> String.ltb b c = true -> String.ltb a c = true.
Proof.
  rewrite !string_ltb_lt. apply (StrictOrder_Transitive (R:=String_as_OT.lt)).
Qed.

Lemma string_ltb_asym (a b : string) :
  String.ltb a b = true -> String.ltb b a = false.
Proof.
  intros H. destruct (String.ltb b a) eqn:E; [|reflexivity].
  pose proof (string_ltb_trans _ _ _ H E) as C.
  rewrite string_ltb_irrefl in C. discriminate.
Qed.

Lemma py_lt_irrefl (a : PyVal) : py_lt a a = Ok false.
Proof.
  destruct a; simpl.
  - now rewrite Z.ltb_irrefl.
  - now rewrite string_ltb_irrefl.
Qed.

Lemma py_lt_asym (a b : PyVal) : py_lt a b = Ok true -> py_lt b a = Ok false.
Proof.
  destruct a, b; simpl; intros H; try discriminate; injection H as E; f_equal.
  - apply Z.ltb_lt in E. apply Z.ltb_ge. lia.
  - now apply string_ltb_asym.
Qed.

(** [a < b] and [b <= c] give [a <= c]. *)
Lemma py_lt_le_trans (a b c : PyVal) :
  py_lt a b = Ok true -> py_le b c -> py_le a c.
Proof.
  unfold py_le. destruct a, b, c; simpl; intros H1 H2; try discriminate;
    injection H1 as E1; injection H2 as E2; f_equal.
  - apply Z.ltb_lt in E1. apply Z.ltb_ge in E2. apply Z.ltb_ge. lia.
  - destruct (String.ltb s1 s) eqn:E; [|reflexivity].
    rewrite (string_ltb_trans _ _ _ E E1) in E2. discriminate.
Qed.

Lemma py_lt_same_type (a b : PyVal) :
  same_type a b = true -> exists r, py_lt a b = Ok r.
Proof. destruct a, b; simpl; intros; try discriminate; eauto. Qed.

Lemma PyVal_eqb_eq (a b : PyVal) : PyVal_eqb a b = true <-> a = b.
Proof.
  destruct a, b; simpl; split; intros H; try discriminate.
  - apply Z.eqb_eq in H. now subst.
  - inversion H. apply Z.eqb_refl.
  - apply String.eqb_eq in H. now subst.
  - inversion H. apply String.eqb_refl.
Qed.

(** ** Properties of [list.sort] *)

Lemma filter_none {A} (p : A -> bool) (l : list A) :
  (forall z, In z l -> p z = false) -> filter p l = [].
Proof.
  induction l as [|a l IH]; simpl; intros H; [reflexivity|].
  rewrite (H a (or_introl eq_refl)). apply IH. intros z Hz. apply H. now right.
Qed.

Section ListSortFacts.
Context {A : Type}.

Lemma insert_Permutation (kx : PyVal * A) sorted r :
  insert kx sorted = Ok r -> Permutation (kx :: sorted) r.
Proof.
  revert r; induction sorted as [|ky s IH]; simpl; intros r H.
  - inversion H. apply Permutation_refl.
  - destruct (py_lt (fst kx) (fst ky)) as [[|]|] eqn:E; try discriminate.
    + inversion H. apply Permutation_refl.
    + destruct (insert kx s) as [r'|] eqn:E'; try discriminate.
      inversion H; subst.
      eapply perm_trans; [apply perm_swap|].
      apply perm_skip. now apply IH.
Qed.

Lemma insert_sorted (kx : PyVal * A) sorted r :
  StronglySorted keyed_le sorted ->
  insert kx sorted = Ok r ->
  StronglySorted keyed_le r.
Proof.
  revert r; induction sorted as [|ky s IH]; simpl; intros r Hs H.
  - inversion H. repeat constructor.
  - inversion Hs as [|? ? Hs' Hall]; subst.
    destruct (py_lt (fst kx) (fst ky)) as [[|]|] eqn:E; try discriminate.
    + inversion H; subst. constructor; [assumption|].
      constructor.
      * unfold keyed_le, py_le. now apply py_lt_asym.
      * eapply Forall_impl; [|exact Hall].
        intros z Hz. unfold keyed_le in *.
        eapply py_lt_le_trans; eassumption.
    + destruct (insert kx s) as [r'|] eqn:E'; try discriminate.
      inversion H; subst.
      constructor; [now apply IH|].
      eapply Permutation_Forall; [apply insert_Permutation; exact E'|].
      constructor; assumption.
Qed.

(** Insertion puts the new element after every element with its key. *)
Lemma insert_filter v (kx : PyVal * A) sorted r :
  StronglySorted keyed_le sorted ->
  insert kx sorted = Ok r ->
  filter (keyed_is v) r = filter (keyed_is v) sorted ++ filter (keyed_is v) [kx].
Proof.
  revert r; induction sorted as [|ky s IH]; intros r Hs H.
  - simpl in H. inversion H. reflexivity.
  - inversion Hs as [|? ? Hs' Hall]; subst. simpl in H.
    destruct (py_lt (fst kx) (fst ky)) as [[|]|] eqn:E; try discriminate.
    + inversion H; subst; clear H.
      change (kx :: ky :: s) with ([kx] ++ ky :: s). rewrite filter_app.
      assert (Hk : filter (keyed_is v) [kx]
                   = if keyed_is v kx then [kx] else []) by reflexivity.
      rewrite Hk.
      destruct (keyed_is v kx) eqn:Ev; [|now rewrite app_nil_r].
      apply PyVal_eqb_eq in Ev.
      assert (Hnone : filter (keyed_is v) (ky :: s) = []).
      { apply filter_none. intros z Hz.
        destruct (keyed_is v z) eqn:Ez; [|reflexivity]. exfalso.
        apply PyVal_eqb_eq in Ez.
        destruct Hz as [<-|Hz].
        - rewrite Ez, <- Ev, py_lt_irrefl in E. discriminate.
        - rewrite Forall_forall in Hall. specialize (Hall z Hz).
          unfold keyed_le, py_le in Hall.
          rewrite Ez, <- Ev, E in Hall. discriminate. }
      rewrite Hnone. reflexivity.
    + destruct (insert kx s) as [r'|] eqn:E'; try discriminate.
      inversion H; subst; clear H.
      simpl. rewrite (IH r' Hs' eq_refl). simpl.
      destruct (keyed_is v ky); reflexivity.
Qed.

Lemma insert_all_spec (rest : list (PyVal * A)) : forall sorted r,
  StronglySorted keyed_le sorted ->
  insert_all sorted rest = Ok r ->
  StronglySorted keyed_le r
  /\ Permutation (sorted ++ rest) r
  /\ forall v, filter (keyed_is v) r
               = filter (keyed_is v) sorted ++ filter (keyed_is v) rest.
Proof.
  induction rest as [|kx rest IH]; simpl; intros sorted r Hs H.
  - inversion H; subst. rewrite app_nil_r. repeat split; auto.
    intros v. now rewrite app_nil_r.
  - destruct (insert kx sorted) as [s'|] eqn:E; try discriminate.
    destruct (IH s' r (insert_sorted _ _ _ Hs E) H) as (Hr & Hp & Hf).
    repeat split; auto.
    + eapply perm_trans; [|exact Hp].
      eapply perm_trans; [apply Permutation_sym, Permutation_middle|].
      change (kx :: sorted ++ rest) with ((kx :: sorted) ++ rest).
      apply Permutation_app_tail. now apply insert_Permutation.
    + intros v. rewrite Hf, (insert_filter v _ _ _ Hs E), <- app_assoc.
      simpl. destruct (keyed_is v kx); reflexivity.
Qed.
End ListSortFacts.

Section ListSortSpec.
Context {A : Type}.
Variable key : A -> result PyVal.

Lemma compute_keys_spec (l : list A) : forall kl,
  compute_keys key l = Ok kl -> map snd kl = l /\ Forall (keyed_by key) kl.
Proof.
  induction l as [|a l IH]; simpl; intros kl H.
  - inversion H. split; constructor.
  - destruct (key a) as [k|] eqn:Ek; try discriminate.
    destruct (compute_keys key l) as [kl'|] eqn:E; try discriminate.
    inversion H; subst. destruct (IH kl' eq_refl) as [Hm Hk].
    split; simpl; [now rewrite Hm | constructor; assumption].
Qed.

Lemma compute_keys_total (l : list A) :
  (forall x, In x l -> exists a, key x = Ok a) ->
  exists kl, compute_keys key l = Ok kl.
Proof.
  induction l as [|a l IH]; simpl; intros H; [eauto|].
  destruct (H a (or_introl eq_refl)) as [k ->].
  destruct IH as [kl ->]; eauto.
Qed.

Lemma insert_total (kx : PyVal * A) (sorted : list (PyVal * A)) :
  (forall ky, In ky sorted -> same_type (fst kx) (fst ky) = true) ->
  exists r, insert kx sorted = Ok r.
Proof.
  induction sorted as [|ky s IH]; simpl; intros H; [eauto|].
  destruct (py_lt_same_type _ _ (H ky (or_introl eq_refl))) as [[|] ->]; [eauto|].
  destruct IH as [r ->]; eauto.
Qed.

Lemma insert_all_total (rest : list (PyVal * A)) : forall sorted,
  pairwise_same_type (sorted ++ rest) ->
  exists r, insert_all sorted rest = Ok r.
Proof.
  induction rest as [|kx rest IH]; simpl; intros sorted H; [eauto|].
  destruct (insert_total kx sorted) as [s' E].
  { intros ky Hky. apply H; apply in_or_app; [right; now left | now left]. }
  rewrite E. apply IH. intros p q Hp Hq.
  assert (Hin : forall z, In z (s' ++ rest) -> In z (sorted ++ kx :: rest)).
  { intros z Hz. apply in_app_or in Hz. destruct Hz as [Hz|Hz].
    - apply (Permutation_in _ (Permutation_sym (insert_Permutation _ _ _ E))) in Hz.
      destruct Hz as [<-|Hz]; apply in_or_app; [right; now left | now left].
    - apply in_or_app. right. now right. }
  apply H; now apply Hin.
Qed.

Lemma keyed_sorted (kl : list (PyVal * A)) :
  Forall (keyed_by key) kl ->
  StronglySorted keyed_le kl ->
  StronglySorted (key_le key) (map snd kl).
Proof.
  induction kl as [|p kl IH]; simpl; intros Hk Hs; [constructor|].
  inversion Hk as [|? ? Hp Hk']; subst.
  inversion Hs as [|? ? Hs' Hall]; subst.
  constructor; [now apply IH|].
  apply Forall_map. rewrite Forall_forall in *.
  intros q Hq. exists (fst p), (fst q).
  repeat split; [exact Hp | now apply Hk' | now apply Hall].
Qed.

Lemma keyed_filter (v : PyVal) (kl : list (PyVal * A)) :
  Forall (keyed_by key) kl ->
  filter (key_is key v) (map snd kl) = map snd (filter (keyed_is v) kl).
Proof.
  induction kl as [|p kl IH]; simpl; intros Hk; [reflexivity|].
  inversion Hk as [|? ? Hp Hk']; subst.
  unfold key_is at 1. rewrite Hp. fold (keyed_is v p).
  destruct (keyed_is v p); simpl; now rewrite IH.
Qed.

(** What a sort that returns has done. *)
Lemma list_sort_spec (l l' : list A) :
  list_sort key l = Ok l' ->
  Permutation l l'
  /\ StronglySorted (key_le key) l'
  /\ forall v, filter (key_is key v) l' = filter (key_is key v) l.
Proof.
  unfold list_sort. intros H.
  destruct (compute_keys key l) as [kl|] eqn:Ek; try discriminate.
  destruct (insert_all [] kl) as [r|] eqn:Er; try discriminate.
  inversion H; subst; clear H.
  destruct (compute_keys_spec _ _ Ek) as [Hm Hk].
  destruct (insert_all_spec kl [] r (SSorted_nil _) Er) as (Hs & Hp & Hf).
  simpl in Hp.
  assert (Hkr : Forall (keyed_by key) r) by (eapply Permutation_Forall; eassumption).
  repeat split.
  - rewrite <- Hm. now apply Permutation_map.
  - now apply keyed_sorted.
  - intros v. rewrite <- Hm, !keyed_filter by assumption.
    now rewrite Hf.
Qed.

(** A sort of mutually comparable keys returns. *)
Lemma list_sort_total (l : list A) :
  keys_comparable key l -> exists l', list_sort key l = Ok l'.
Proof.
  intros H. unfold list_sort.
  destruct (compute_keys_total l) as [kl Ek].
  { intros x Hx. destruct (H x x Hx Hx) as (a & _ & Ha & _). eauto. }
  rewrite Ek. destruct (compute_keys_spec _ _ Ek) as [Hm Hk].
  destruct (insert_all_total kl []) as [r ->]; [|eauto].
  simpl. intros p q Hp Hq. rewrite Forall_forall in Hk.
  destruct (H (snd p) (snd q)) as (a & b & Ha & Hb & Hab).
  - rewrite <- Hm. now apply in_map.
  - rewrite <- Hm. now apply in_map.
  - rewrite (Hk p Hp) in Ha. rewrite (Hk q Hq) in Hb.
    inversion Ha; inversion Hb; subst. exact Hab.
Qed.
End ListSortSpec.

(** ** Observations and the trace *)

Lemma path_requests_app (t u : Trace) :
  path_requests (t ++ u) = path_requests t ++ path_requests u.
Proof. apply flat_map_app. Qed.

Lemma merge_requests_app (t u : Trace) :
  merge_requests (t ++ u) = merge_requests t ++ merge_requests u.
Proof. apply flat_map_app. Qed.

Lemma published_app (t u : Trace) :
  published (t ++ u) = published t ++ published u.
Proof. apply flat_map_app. Qed.

Create Rewrite HintDb trace.
#[local] Hint Rewrite path_requests_app merge_requests_app published_app
  app_nil_r : trace.

Ltac trace_simpl := autorewrite with trace; simpl; autorewrite with trace.

Lemma indexFromName_range (fs : list string) (n : string) :
  (-1 <= indexFromName fs n)%Z.
Proof.
  induction fs as [|f fs IH]; simpl; [lia|].
  destruct (String.eqb f n); [lia|].
  destruct (Z.eqb_spec (indexFromName fs n) (-1)); lia.
Qed.

Lemma indexFromName_absent (fs : list string) (n : string) :
  indexFromName fs n = (-1)%Z <-> ~ In n fs.
Proof.
  induction fs as [|f fs IH]; simpl; [tauto|].
  destruct (String.eqb_spec f n) as [->|Hne].
  - split; [discriminate | intros H; exfalso; apply H; now left].
  - pose proof (indexFromName_range fs n).
    destruct (Z.eqb_spec (indexFromName fs n) (-1)) as [E|E].
    + split; [|reflexivity]. intros _ [H'|H']; [congruence|]. now apply IH.
    + split; [lia|]. intros H'. exfalso. apply E, IH. tauto.
Qed.

(** ** The loop over consecutive stops *)

Section Loop.
Variable w : World.
Variable network_layer : QgsVectorLayer.
Variable stops_crs : QgsCoordinateReferenceSystem.
Variable sorted_stops_coords : list (float * float).

Local Notation "'loop'" :=
  (segment_loop w network_layer stops_crs sorted_stops_coords).
Local Notation "'request'" :=
  (segment_request w network_layer stops_crs sorted_stops_coords).

Lemma segment_loop_unfold (n i : nat) (acc : list QgsVectorLayer) (t : Trace) :
  loop (S n) i acc t =
    match nth_error sorted_stops_coords i with
    | None => (Raise IndexError, t)
    | Some start_coords =>
        match nth_error sorted_stops_coords (i + 1) with
        | None => (Raise IndexError, t)
        | Some end_coords =>
            let t1 := t ++ [segment_notice i] in
            let p := path_params w network_layer stops_crs start_coords end_coords in
            match shortestpathpointtopoint w t1 p with
            | Ok l => loop n (S i) (acc ++ [l]) (t1 ++ [RunShortestPath p])
            | Raise e => (Raise e, t1 ++ [RunShortestPath p])
            end
        end
    end.
Proof.
  cbn [segment_loop].
  unfold bind, subscript, ret, raise, print, emit, processing_run_shortestpath,
    segment_notice.
  destruct (nth_error sorted_stops_coords i); [|reflexivity].
  destruct (nth_error sorted_stops_coords (i + 1)); [|reflexivity].
  cbv zeta. destruct (shortestpathpointtopoint w _ _); reflexivity.
Qed.

Lemma segment_loop_step (n i : nat) (acc : list QgsVectorLayer) (t : Trace) :
  i + 1 < List.length sorted_stops_coords ->
  loop (S n) i acc t =
    let t1 := t ++ [segment_notice i] in
    match shortestpathpointtopoint w t1 (request i) with
    | Ok l => loop n (S i) (acc ++ [l]) (t1 ++ [RunShortestPath (request i)])
    | Raise e => (Raise e, t1 ++ [RunShortestPath (request i)])
    end.
Proof.
  intros Hi. rewrite segment_loop_unfold. unfold segment_request.
  rewrite !(nth_error_nth' sorted_stops_coords (0%float, 0%float)) by lia.
  reflexivity.
Qed.

(** Whatever happens, the loop neither merges nor publishes. *)
Lemma segment_loop_quiet (n : nat) : forall i acc t,
  merge_requests (snd (loop n i acc t)) = merge_requests t
  /\ published (snd (loop n i acc t)) = published t.
Proof.
  induction n as [|n IH]; intros i acc t; [split; reflexivity|].
  rewrite segment_loop_unfold.
  destruct (nth_error sorted_stops_coords i) as [s|]; [|split; reflexivity].
  destruct (nth_error sorted_stops_coords (i + 1)) as [e|]; [|split; reflexivity].
  cbv zeta. unfold segment_notice.
  destruct (shortestpathpointtopoint w _ _) as [l|x].
  - match goal with |- context [loop n ?j ?a ?u] =>
      destruct (IH j a u) as [Hm Hp]; rewrite Hm, Hp end.
    trace_simpl. split; reflexivity.
  - cbn [snd]. trace_simpl. split; reflexivity.
Qed.

(** When the engine answers every request, the loop issues one request
    per consecutive pair, in order, and collects the answers in order. *)
Lemma segment_loop_ok (n : nat) : forall i acc t,
  i + n < List.length sorted_stops_coords ->
  (forall j t', i <= j < i + n ->
     exists l, shortestpathpointtopoint w t' (request j) = Ok l) ->
  exists segs t',
    loop n i acc t = (Ok (acc ++ segs), t')
    /\ Forall2 (answers w) (map request (seq i n)) segs
    /\ path_requests t' = path_requests t ++ map request (seq i n)
    /\ merge_requests t' = merge_requests t
    /\ published t' = published t.
Proof.
  induction n as [|n IH]; intros i acc t Hlen Hok.
  - exists [], t. simpl. rewrite !app_nil_r. repeat split; constructor.
  - rewrite segment_loop_step by lia. cbv zeta.
    destruct (Hok i (t ++ [segment_notice i]) ltac:(lia)) as [l El]. rewrite El.
    destruct (IH (S i) (acc ++ [l])
                ((t ++ [segment_notice i]) ++ [RunShortestPath (request i)]))
      as (segs & t' & Hrun & Hans & Hreq & Hm & Hp).
    { lia. } { intros j t'' Hj. apply Hok. lia. }
    exists (l :: segs), t'. rewrite Hrun, <- app_assoc. simpl.
    repeat split.
    + constructor; [eexists; exact El | exact Hans].
    + rewrite Hreq. unfold segment_notice. trace_simpl.
      now rewrite <- app_assoc.
    + rewrite Hm. unfold segment_notice. now trace_simpl.
    + rewrite Hp. unfold segment_notice. now trace_simpl.
Qed.

(** When the engine answers the first [k] requests and raises on the
    next one, the loop stops right after that request. *)
Lemma segment_loop_fail (n : nat) : forall i k acc t e,
  i + n < List.length sorted_stops_coords ->
  k < n ->
  (forall j t', i <= j < i + k ->
     exists l, shortestpathpointtopoint w t' (request j) = Ok l) ->
  (forall t', shortestpathpointtopoint w t' (request (i + k)) = Raise e) ->
  exists t',
    loop n i acc t = (Raise e, t' ++ [RunShortestPath (request (i + k))])
    /\ path_requests t' = path_requests t ++ map request (seq i k)
    /\ merge_requests t' = merge_requests t
    /\ published t' = published t.
Proof.
  induction n as [|n IH]; intros i k acc t e Hlen Hk Hok Hfail; [lia|].
  rewrite segment_loop_step by lia. cbv zeta.
  destruct k as [|k].
  - rewrite Nat.add_0_r in *. rewrite Hfail.
    exists (t ++ [segment_notice i]). unfold segment_notice.
    repeat split; now trace_simpl.
  - destruct (Hok i (t ++ [segment_notice i]) ltac:(lia)) as [l El]. rewrite El.
    destruct (IH (S i) k (acc ++ [l])
                ((t ++ [segment_notice i]) ++ [RunShortestPath (request i)]) e)
      as (t' & Hrun & Hreq & Hm & Hp).
    { lia. } { lia. } { intros j t'' Hj. apply Hok. lia. }
    { intros t''. replace (S i + k) with (i + S k) by lia. apply Hfail. }
    exists t'. replace (i + S k) with (S i + k) by lia.
    rewrite Hrun. repeat split.
    + rewrite Hreq. unfold segment_notice. trace_simpl.
      now rewrite <- app_assoc.
    + rewrite Hm. unfold segment_notice. now trace_simpl.
    + rewrite Hp. unfold segment_notice. now trace_simpl.
Qed.
(** A loop that returns has added one segment per iteration. *)
Lemma segment_loop_length (n : nat) : forall i acc t segs t',
  loop n i acc t = (Ok segs, t') -> List.length segs = List.length acc + n.
Proof.
  induction n as [|n IH]; intros i acc t segs t' H.
  - inversion H. subst. lia.
  - rewrite segment_loop_unfold in H.
    destruct (nth_error sorted_stops_coords i) as [s|]; [|discriminate].
    destruct (nth_error sorted_stops_coords (i + 1)) as [e|]; [|discriminate].
    cbv zeta in H.
    destruct (shortestpathpointtopoint w _ _) as [l|x]; [|discriminate].
    apply IH in H. rewrite H, length_app. simpl. lia.
Qed.
End Loop.

(** ** Steps that leave the project alone *)

Lemma quiet_ret {A} (a : A) : quiet (ret a).
Proof. intros t. split; reflexivity. Qed.

Lemma quiet_raise {A} (e : exn) : quiet (@raise A e).
Proof. intros t. split; reflexivity. Qed.

Lemma quiet_print (line : string) : quiet (print line).
Proof. intros t. unfold print, emit. cbn [snd]. trace_simpl. split; reflexivity. Qed.

Lemma quiet_bind {A B} (m : M A) (k : A -> M B) :
  quiet m -> (forall a, quiet (k a)) -> quiet (bind m k).
Proof.
  intros Hm Hk t. unfold bind. specialize (Hm t).
  destruct (m t) as [[a|e] t']; cbn [snd] in *; [|exact Hm].
  destruct (Hk a t') as [H1 H2]. rewrite H1, H2. exact Hm.
Qed.

Lemma requestless_ret {A} (a : A) : requestless (ret a).
Proof. intros t. reflexivity. Qed.

Lemma requestless_raise {A} (e : exn) : requestless (@raise A e).
Proof. intros t. reflexivity. Qed.

Lemma requestless_print (line : string) : requestless (print line).
Proof. intros t. unfold print, emit. cbn [snd]. now trace_simpl. Qed.

Lemma requestless_bind {A B} (m : M A) (k : A -> M B) :
  requestless m -> (forall a, requestless (k a)) -> requestless (bind m k).
Proof.
  intros Hm Hk t. unfold bind. specialize (Hm t).
  destruct (m t) as [[a|e] t']; cbn [snd] in *; [|exact Hm].
  now rewrite (Hk a t').
Qed.

Lemma publishes_only_on_success_bind {A B} (m : M A) (k : A -> M B) :
  quiet m -> (forall a, publishes_only_on_success (k a)) ->
  publishes_only_on_success (bind m k).
Proof.
  intros Hm Hk t e. unfold bind. destruct (Hm t) as [_ Hp].
  destruct (m t) as [[a|e'] t']; cbn [fst snd] in *; [|intros _; exact Hp].
  intros H. now rewrite (Hk a t' e H).
Qed.

Create HintDb script.
#[local] Hint Resolve quiet_ret quiet_raise quiet_print
  requestless_ret requestless_raise requestless_print : script.

Section Stages.
Variable cfg : Config.
Variable w : World.

Lemma find_layers_pure (t : Trace) : snd (find_layers cfg w t) = t.
Proof.
  unfold find_layers.
  destruct (mapLayersByName w (stops_layer_name cfg)); [reflexivity|].
  destruct (mapLayersByName w (network_layer_name cfg)); reflexivity.
Qed.

Lemma find_layers_quiet : quiet (find_layers cfg w).
Proof. intros t. now rewrite find_layers_pure. Qed.

Lemma find_layers_requestless : requestless (find_layers cfg w).
Proof. intros t. now rewrite find_layers_pure. Qed.

Lemma sort_stops_features_quiet (fs : list QgsFeature) :
  quiet (sort_stops_features cfg fs).
Proof.
  unfold sort_stops_features. destruct (list_sort _ fs); [auto with script|].
  apply quiet_bind; auto with script.
Qed.

Lemma sort_stops_features_requestless (fs : list QgsFeature) :
  requestless (sort_stops_features cfg fs).
Proof.
  unfold sort_stops_features. destruct (list_sort _ fs); [auto with script|].
  apply requestless_bind; auto with script.
Qed.

Lemma load_stops_quiet (stops_layer : QgsVectorLayer) :
  quiet (load_stops cfg stops_layer).
Proof.
  unfold load_stops. destruct (Z.eqb _ _); [auto with script|].
  apply quiet_bind; [apply sort_stops_features_quiet|]. intros fs.
  destruct (Nat.ltb _ _); [auto with script|].
  apply quiet_bind; auto with script.
Qed.

Lemma load_stops_requestless (stops_layer : QgsVectorLayer) :
  requestless (load_stops cfg stops_layer).
Proof.
  unfold load_stops. destruct (Z.eqb _ _); [auto with script|].
  apply requestless_bind; [apply sort_stops_features_requestless|]. intros fs.
  destruct (Nat.ltb _ _); [auto with script|].
  apply requestless_bind; auto with script.
Qed.

Lemma calculate_route_segments_quiet stops_layer network_layer coords :
  quiet (calculate_route_segments w stops_layer network_layer coords).
Proof.
  unfold calculate_route_segments.
  apply quiet_bind; [auto with script|]. intros _.
  apply quiet_bind; [intros t; apply segment_loop_quiet|]. intros segs.
  apply quiet_bind; auto with script.
Qed.

Lemma merge_publishes_only_on_success network_layer segs :
  publishes_only_on_success (merge_and_add_to_project w network_layer segs).
Proof.
  intros t e. unfold merge_and_add_to_project.
  destruct segs as [|s segs].
  - unfold print, emit. discriminate.
  - unfold bind, print, emit, processing_run_merge.
    destruct (mergevectorlayers w _ _); cbn [fst snd]; [discriminate|].
    intros _. now trace_simpl.
Qed.

Lemma script_publishes_only_on_success :
  publishes_only_on_success (script cfg w).
Proof.
  unfold script. apply publishes_only_on_success_bind; [apply find_layers_quiet|].
  intros [sl nl]. unfold route_between_stops.
  apply publishes_only_on_success_bind; [apply load_stops_quiet|]. intros coords.
  apply publishes_only_on_success_bind; [apply calculate_route_segments_quiet|].
  intros segs. apply merge_publishes_only_on_success.
Qed.
End Stages.

(** ** What every path request carries *)

Lemma requestless_keep {A} (P : PathParams -> Prop) (m : M A) :
  requestless m -> requests_keep P m.
Proof. intros H t Ht. now rewrite H. Qed.

Lemma requests_keep_bind {A B} (P : PathParams -> Prop) (m : M A) (k : A -> M B) :
  requests_keep P m -> (forall a, requests_keep P (k a)) ->
  requests_keep P (bind m k).
Proof.
  intros Hm Hk t Ht. unfold bind. specialize (Hm t Ht).
  destruct (m t) as [[a|e] t']; cbn [snd] in *; [|exact Hm].
  now apply Hk.
Qed.

Lemma segment_loop_fixed_settings w network_layer stops_crs coords (n : nat) :
  forall i acc,
    requests_keep fixed_settings
      (segment_loop w network_layer stops_crs coords n i acc).
Proof.
  induction n as [|n IH]; intros i acc t Ht; [exact Ht|].
  rewrite segment_loop_unfold.
  destruct (nth_error coords i) as [s|]; [|exact Ht].
  destruct (nth_error coords (i + 1)) as [e|]; [|exact Ht].
  cbv zeta. unfold segment_notice.
  assert (Ht' : Forall fixed_settings
                  (path_requests
                     ((t ++ [Print ("  Calculating segment " ++ str_nat (i + 1)
                                    ++ ": from stop " ++ str_nat (i + 1)
                                    ++ " to stop " ++ str_nat (i + 2))])
                      ++ [RunShortestPath (path_params w network_layer stops_crs s e)]))).
  { trace_simpl. apply Forall_app. split; [exact Ht|].
    repeat constructor. }
  destruct (shortestpathpointtopoint w _ _) as [l|x]; [|exact Ht'].
  now apply IH.
Qed.

Lemma merge_requestless w network_layer segs :
  requestless (merge_and_add_to_project w network_layer segs).
Proof.
  intros t. unfold merge_and_add_to_project. destruct segs as [|s segs].
  - unfold print, emit. cbn [snd]. now trace_simpl.
  - unfold bind, print, emit, processing_run_merge.
    destruct (mergevectorlayers w _ _); cbn [snd]; now trace_simpl.
Qed.

Lemma script_fixed_settings (cfg : Config) (w : World) :
  requests_keep fixed_settings (script cfg w).
Proof.
  unfold script. apply requests_keep_bind.
  { apply requestless_keep, find_layers_requestless. }
  intros [sl nl]. unfold route_between_stops. apply requests_keep_bind.
  { apply requestless_keep, load_stops_requestless. }
  intros coords. apply requests_keep_bind.
  - unfold calculate_route_segments. apply requests_keep_bind.
    { apply requestless_keep. auto with script. }
    intros _. apply requests_keep_bind; [apply segment_loop_fixed_settings|].
    intros segs. apply requestless_keep, requestless_bind; auto with script.
  - intros segs. apply requestless_keep, merge_requestless.
Qed.

(** ** A run whose stops load *)

Section Loaded.
Variable cfg : Config.
Variable w : World.
Variables stops_layer network_layer : QgsVectorLayer.
Variables other_stops other_networks : list QgsVectorLayer.
Variable sorted : list QgsFeature.

Hypothesis stops_found :
  mapLayersByName w (stops_layer_name cfg) = stops_layer :: other_stops.
Hypothesis network_found :
  mapLayersByName w (network_layer_name cfg) = network_layer :: other_networks.

Lemma find_layers_first (t : Trace) :
  find_layers cfg w t = (Ok (stops_layer, network_layer), t).
Proof. unfold find_layers. now rewrite stops_found, network_found. Qed.

Lemma script_after_lookup (t : Trace) :
  script cfg w t = route_between_stops cfg w stops_layer network_layer t.
Proof. unfold script, bind. now rewrite find_layers_first. Qed.

Hypothesis field_found :
  indexFromName (fields stops_layer) (order_field_name cfg) <> (-1)%Z.
Hypothesis sort_returns :
  list_sort (fun f => getitem f (order_field_name cfg)) (getFeatures stops_layer)
  = Ok sorted.

Lemma load_stops_few (t : Trace) :
  List.length sorted < 2 ->
  load_stops cfg stops_layer t =
    (Raise (Exception
       "Fewer than two stops found in the layer. Cannot calculate a route."), t).
Proof.
  intros Hlen. unfold load_stops.
  destruct (Z.eqb_spec (indexFromName (fields stops_layer) (order_field_name cfg)) (-1));
    [contradiction|].
  unfold bind at 1. unfold sort_stops_features. rewrite sort_returns.
  unfold ret at 1. rewrite length_map.
  destruct (Nat.ltb_spec (List.length sorted) 2); [reflexivity | lia].
Qed.

Lemma load_stops_ok (t : Trace) :
  2 <= List.length sorted ->
  load_stops cfg stops_layer t = (Ok (map asPoint sorted), t ++ [found_notice cfg sorted]).
Proof.
  intros Hlen. unfold load_stops.
  destruct (Z.eqb_spec (indexFromName (fields stops_layer) (order_field_name cfg)) (-1));
    [contradiction|].
  unfold bind at 1. unfold sort_stops_features. rewrite sort_returns.
  unfold ret at 1. rewrite length_map.
  destruct (Nat.ltb_spec (List.length sorted) 2); [lia | reflexivity].
Qed.

Lemma script_loaded (t : Trace) :
  2 <= List.length sorted ->
  script cfg w t =
    bind (calculate_route_segments w stops_layer network_layer (map asPoint sorted))
         (merge_and_add_to_project w network_layer) (t ++ [found_notice cfg sorted]).
Proof.
  intros Hlen. rewrite script_after_lookup. unfold route_between_stops.
  unfold bind at 1. now rewrite load_stops_ok.
Qed.
End Loaded.

(** ** The planner and the merge step on a trace *)

Lemma calculate_route_segments_ok w stops_layer network_layer coords t :
  2 <= List.length coords ->
  (forall j t', j + 1 < List.length coords ->
     exists l, shortestpathpointtopoint w t'
                 (segment_request w network_layer (crs stops_layer) coords j) = Ok l) ->
  exists segs t',
    calculate_route_segments w stops_layer network_layer coords t = (Ok segs, t')
    /\ Forall2 (answers w)
         (map (segment_request w network_layer (crs stops_layer) coords)
              (seq 0 (List.length coords - 1))) segs
    /\ path_requests t'
       = path_requests t
         ++ map (segment_request w network_layer (crs stops_layer) coords)
                (seq 0 (List.length coords - 1))
    /\ merge_requests t' = merge_requests t
    /\ published t' = published t.
Proof.
  intros Hlen Hok. unfold calculate_route_segments.
  unfold bind at 1. unfold print at 1. unfold emit. unfold bind at 1.
  destruct (segment_loop_ok w network_layer (crs stops_layer) coords
              (List.length coords - 1) 0 []
              (t ++ [Print "Starting multi-stop shortest path calculation..."]))
    as (segs & t' & Hrun & Hans & Hreq & Hm & Hp).
  { lia. } { intros j t'' Hj. apply Hok. lia. }
  rewrite Hrun. cbn [app]. exists segs, (t' ++ [Print "...calculation finished."]).
  repeat split.
  - exact Hans.
  - trace_simpl. rewrite Hreq. now trace_simpl.
  - trace_simpl. rewrite Hm. now trace_simpl.
  - trace_simpl. rewrite Hp. now trace_simpl.
Qed.

Lemma calculate_route_segments_fail w stops_layer network_layer coords t k e :
  k + 1 < List.length coords ->
  (forall j t', j < k ->
     exists l, shortestpathpointtopoint w t'
                 (segment_request w network_layer (crs stops_layer) coords j) = Ok l) ->
  (forall t', shortestpathpointtopoint w t'
                (segment_request w network_layer (crs stops_layer) coords k) = Raise e) ->
  exists t',
    calculate_route_segments w stops_layer network_layer coords t
    = (Raise e,
       t' ++ [RunShortestPath
                (segment_request w network_layer (crs stops_layer) coords k)])
    /\ path_requests t'
       = path_requests t
         ++ map (segment_request w network_layer (crs stops_layer) coords) (seq 0 k)
    /\ merge_requests t' = merge_requests t
    /\ published t' = published t.
Proof.
  intros Hk Hok Hfail. unfold calculate_route_segments.
  unfold bind at 1. unfold print at 1. unfold emit. unfold bind at 1.
  destruct (segment_loop_fail w network_layer (crs stops_layer) coords
              (List.length coords - 1) 0 k []
              (t ++ [Print "Starting multi-stop shortest path calculation..."]) e)
    as (t' & Hrun & Hreq & Hm & Hp).
  { lia. } { lia. } { intros j t'' Hj. apply Hok. lia. } { exact Hfail. }
  cbn [Nat.add] in Hrun. rewrite Hrun. exists t'. repeat split.
  - rewrite Hreq. now trace_simpl.
  - rewrite Hm. now trace_simpl.
  - rewrite Hp. now trace_simpl.
Qed.

Lemma calculate_route_segments_length w stops_layer network_layer coords t segs t' :
  calculate_route_segments w stops_layer network_layer coords t = (Ok segs, t') ->
  List.length segs = List.length coords - 1.
Proof.
  unfold calculate_route_segments.
  unfold bind at 1. unfold print at 1. unfold emit. unfold bind at 1.
  destruct (segment_loop w network_layer (crs stops_layer) coords
              (List.length coords - 1) 0 [] _) as [[segs0|e] t0] eqn:E; [|discriminate].
  unfold bind, print, emit, ret. intros H. inversion H; subst.
  now apply segment_loop_length in E.
Qed.

Lemma load_stops_at_least_two cfg stops_layer t coords t' :
  load_stops cfg stops_layer t = (Ok coords, t') -> 2 <= List.length coords.
Proof.
  unfold load_stops. destruct (Z.eqb _ _); [discriminate|].
  unfold bind at 1.
  destruct (sort_stops_features cfg (getFeatures stops_layer) t) as [[fs|e] t0];
    [|discriminate].
  destruct (Nat.ltb_spec (List.length (map asPoint fs)) 2) as [Hlt|Hge];
    [discriminate|].
  unfold bind, print, emit, ret. intros Hr. inversion Hr; subst. exact Hge.
Qed.

Lemma merge_and_add_unfold w network_layer s segs t :
  merge_and_add_to_project w network_layer (s :: segs) t =
    let t1 := t ++ [Print "Merging route segments..."] in
    let params := merge_params_of network_layer (s :: segs) in
    match mergevectorlayers w t1 params with
    | Ok out =>
        (Ok tt,
         t1 ++ [RunMerge params;
                AddMapLayer (setName out "Multi-Stop Route (from Layer)");
                Print "Multi-stop route created and added to the project as 'Multi-Stop Route (from Layer)'."])
    | Raise e => (Raise e, t1 ++ [RunMerge params])
    end.
Proof.
  unfold merge_and_add_to_project, bind, print, emit, processing_run_merge,
    merge_params_of.
  cbv zeta. destruct (mergevectorlayers w _ _); [|reflexivity].
  now rewrite <- !app_assoc.
Qed.

Lemma merge_and_add_requests w network_layer s segs t :
  merge_requests (snd (merge_and_add_to_project w network_layer (s :: segs) t))
  = merge_requests t ++ [merge_params_of network_layer (s :: segs)].
Proof.
  rewrite merge_and_add_unfold. cbv zeta.
  destruct (mergevectorlayers w _ _); cbn [snd]; now trace_simpl.
Qed.

Lemma nth_map_asPoint (sorted : list QgsFeature) (i : nat) (f : QgsFeature) d :
  nth_error sorted i = Some f -> nth i (map asPoint sorted) d = asPoint f.
Proof.
  intros H. apply nth_error_nth. now apply map_nth_error.
Qed.

Section LoadedRun.
Variable cfg : Config.
Variable w : World.
Variables stops_layer network_layer : QgsVectorLayer.
Variables other_stops other_networks : list QgsVectorLayer.
Variable sorted : list QgsFeature.

Hypothesis stops_found :
  mapLayersByName w (stops_layer_name cfg) = stops_layer :: other_stops.
Hypothesis network_found :
  mapLayersByName w (network_layer_name cfg) = network_layer :: other_networks.
Hypothesis field_found : In (order_field_name cfg) (fields stops_layer).
Hypothesis sort_returns :
  list_sort (fun f => getitem f (order_field_name cfg)) (getFeatures stops_layer)
  = Ok sorted.

Local Notation "'request'" :=
  (segment_request w network_layer (crs stops_layer) (map asPoint sorted)).

Lemma field_index : indexFromName (fields stops_layer) (order_field_name cfg) <> (-1)%Z.
Proof. intros E. now apply indexFromName_absent in E. Qed.

(** The engine answers every request: the run asks for every consecutive
    pair and hands the answers, in that order, to the merge. *)
Lemma run_loaded_ok :
  2 <= List.length sorted ->
  (forall j t, j + 1 < List.length sorted ->
     exists l, shortestpathpointtopoint w t (request j) = Ok l) ->
  exists segs,
    Forall2 (answers w) (map request (seq 0 (List.length sorted - 1))) segs
    /\ path_requests (snd (run cfg w)) = map request (seq 0 (List.length sorted - 1))
    /\ merge_requests (snd (run cfg w)) = [merge_params_of network_layer segs].
Proof.
  intros Hlen Hok. unfold run.
  rewrite (script_loaded cfg w _ _ _ _ sorted stops_found network_found
             field_index sort_returns [] Hlen).
  destruct (calculate_route_segments_ok w stops_layer network_layer
              (map asPoint sorted) ([] ++ [found_notice cfg sorted]))
    as (segs & t' & Hc & Hans & Hreq & Hm & Hp).
  { now rewrite length_map. }
  { intros j t'. rewrite length_map. apply Hok. }
  rewrite length_map in *.
  unfold bind. rewrite Hc. exists segs.
  assert (Hne : segs <> []).
  { intros ->. apply Forall2_length in Hans.
    rewrite length_map, length_seq in Hans. simpl in Hans. lia. }
  destruct segs as [|s segs]; [congruence|].
  split; [exact Hans|]. split.
  - rewrite merge_requestless, Hreq. unfold found_notice. now trace_simpl.
  - rewrite merge_and_add_requests, Hm. unfold found_notice. now trace_simpl.
Qed.

(** The engine raises on request [k] after answering the earlier ones:
    the run ends there. *)
Lemma run_loaded_fail (k : nat) (e : exn) :
  k + 1 < List.length sorted ->
  (forall j t, j < k -> exists l, shortestpathpointtopoint w t (request j) = Ok l) ->
  (forall t, shortestpathpointtopoint w t (request k) = Raise e) ->
  exists t,
    run cfg w = (Raise e, t ++ [RunShortestPath (request k)])
    /\ path_requests t = map request (seq 0 k)
    /\ merge_requests t = []
    /\ published t = [].
Proof.
  intros Hk Hok Hfail. unfold run.
  rewrite (script_loaded cfg w _ _ _ _ sorted stops_found network_found
             field_index sort_returns []) by lia.
  destruct (calculate_route_segments_fail w stops_layer network_layer
              (map asPoint sorted) ([] ++ [found_notice cfg sorted]) k e)
    as (t' & Hc & Hreq & Hm & Hp).
  { now rewrite length_map. } { exact Hok. } { exact Hfail. }
  unfold bind. rewrite Hc. exists t'. split; [reflexivity|].
  rewrite Hreq, Hm, Hp. unfold found_notice. repeat split; now trace_simpl.
Qed.
End LoadedRun.

Lemma world_for_requests (cfg : Config) :
  path_requests (snd (run cfg (world_for cfg))) <> [].
Proof.
  destruct (run_loaded_ok cfg (world_for cfg)
              (two_stops_for cfg) (two_stops_for cfg) [] []
              (getFeatures (two_stops_for cfg)))
    as (segs & _ & Hreq & _).
  - reflexivity.
  - reflexivity.
  - simpl. now left.
  - unfold list_sort, two_stops_for, getitem. cbn [getFeatures compute_keys attributes lookup_attribute].
    rewrite String.eqb_refl. reflexivity.
  - simpl. lia.
  - intros j t _. eexists. reflexivity.
  - rewrite Hreq. discriminate.
Qed.

(** * The properties of the specification *)

(** C1.  On a valid input with N >= 2 stops (both layers found, the
    order field present, the sort returns the N stops, the path engine
    answers the request of every consecutive pair) the planner issues
    exactly N - 1 path requests, request [i] starts at the position of
    sorted stop [i] and ends at the position of sorted stop [i + 1], and
    exactly N - 1 segments are collected: the answers to these requests, in
    the same order, which the run then passes on to the merge. *)
Theorem planner_requests_consecutive_pairs
  (cfg : Config) (w : World) (stops_layer network_layer : QgsVectorLayer)
  (other_stops other_networks : list QgsVectorLayer) (sorted : list QgsFeature) :
  mapLayersByName w (stops_layer_name cfg) = stops_layer :: other_stops ->
  mapLayersByName w (network_layer_name cfg) = network_layer :: other_networks ->
  In (order_field_name cfg) (fields stops_layer) ->
  list_sort (fun f => getitem f (order_field_name cfg)) (getFeatures stops_layer)
    = Ok sorted ->
  2 <= List.length sorted ->
  (forall j t, j + 1 < List.length sorted ->
     exists l, shortestpathpointtopoint w t
                 (segment_request w network_layer (crs stops_layer)
                    (map asPoint sorted) j) = Ok l) ->
  let requests := path_requests (snd (run cfg w)) in
  List.length requests = List.length sorted - 1
  /\ (forall i f g,
        nth_error sorted i = Some f -> nth_error sorted (i + 1) = Some g ->
        exists p, nth_error requests i = Some p
                  /\ START_POINT p = point_str w (asPoint f) (crs stops_layer)
                  /\ END_POINT p = point_str w (asPoint g) (crs stops_layer))
  /\ exists route_segments,
       List.length route_segments = List.length sorted - 1
       /\ Forall2 (answers w) requests route_segments
       /\ merge_requests (snd (run cfg w))
          = [mkMergeParams route_segments (crs network_layer) "memory:"].
Proof.
  intros Hs Hn Hf Hsort Hlen Hok requests.
  destruct (run_loaded_ok cfg w _ _ _ _ sorted Hs Hn Hf Hsort Hlen Hok)
    as (segs & Hans & Hreq & Hm).
  subst requests. rewrite Hreq. split; [|split].
  - now rewrite length_map, length_seq.
  - intros i f g Hi Hg.
    assert (Hlt : i + 1 < List.length sorted).
    { apply nth_error_Some. congruence. }
    exists (segment_request w network_layer (crs stops_layer) (map asPoint sorted) i).
    split; [|split].
    + rewrite nth_error_map, nth_error_seq.
      destruct (Nat.ltb_spec i (List.length sorted - 1)); [reflexivity | lia].
    + unfold segment_request, path_params. cbn [START_POINT].
      now rewrite (nth_map_asPoint sorted i f).
    + unfold segment_request, path_params. cbn [END_POINT].
      now rewrite (nth_map_asPoint sorted (i + 1) g).
  - exists segs. split; [|split].
    + apply Forall2_length in Hans. now rewrite length_map, length_seq in Hans.
    + exact Hans.
    + exact Hm.
Qed.

Lemma planner_requests_consecutive_pairs_witness :
  map (fun p => (START_POINT p, END_POINT p))
      (path_requests (snd (run default_config example_world)))
  = [("10.0,0.0 [EPSG:4326]", "0.0,0.0 [EPSG:4326]");
     ("0.0,0.0 [EPSG:4326]", "5.0,5.0 [EPSG:4326]")]
  /\ List.length (path_requests (snd (run default_config example_world))) = 3 - 1.
Proof.
  split; [reflexivity|].
  apply (planner_requests_consecutive_pairs default_config example_world
           example_stops example_network [] []
           [stop (PInt 1) 10 0; stop (PInt 2) 0 0; stop (PInt 3) 5 5]).
  - reflexivity.
  - reflexivity.
  - simpl. now left.
  - reflexivity.
  - simpl. lia.
  - intros j t _. eexists. reflexivity.
Defined.

(** C2.  An exception of any step ends the run at that step, and a run
    that ends in an exception has published no layer.  (1) Whatever the
    exception and wherever it is raised, nothing was added to the project.
    (2) An exception of the layer lookup ends the run before anything else
    happens.  (3) An exception while loading the stops (field check, sort,
    stop count) ends the run with no path request, no merge and nothing
    published.  (4) When the path engine raises on the request of segment
    [k], having answered the earlier ones, that request is the last thing
    the run does: exactly the requests 0..k were issued, none for a later
    segment, no merge and nothing published, and the run ends in the
    engine's exception. *)
Theorem errors_abort_the_run :
  (forall cfg w e t, run cfg w = (Raise e, t) -> published t = [])
  /\ (forall cfg w e t,
        find_layers cfg w [] = (Raise e, t) -> run cfg w = (Raise e, []))
  /\ (forall cfg w stops_layer network_layer e t,
        find_layers cfg w [] = (Ok (stops_layer, network_layer), []) ->
        load_stops cfg stops_layer [] = (Raise e, t) ->
        run cfg w = (Raise e, t)
        /\ path_requests t = [] /\ merge_requests t = [] /\ published t = [])
  /\ (forall cfg w stops_layer network_layer other_stops other_networks sorted k e,
        mapLayersByName w (stops_layer_name cfg) = stops_layer :: other_stops ->
        mapLayersByName w (network_layer_name cfg) = network_layer :: other_networks ->
        In (order_field_name cfg) (fields stops_layer) ->
        list_sort (fun f => getitem f (order_field_name cfg)) (getFeatures stops_layer)
          = Ok sorted ->
        let request :=
          segment_request w network_layer (crs stops_layer) (map asPoint sorted) in
        k + 1 < List.length sorted ->
        (forall j t, j < k ->
           exists l, shortestpathpointtopoint w t (request j) = Ok l) ->
        (forall t, shortestpathpointtopoint w t (request k) = Raise e) ->
        exists t,
          run cfg w = (Raise e, t ++ [RunShortestPath (request k)])
          /\ path_requests (t ++ [RunShortestPath (request k)])
             = map request (seq 0 (k + 1))
          /\ merge_requests (t ++ [RunShortestPath (request k)]) = []
          /\ published (t ++ [RunShortestPath (request k)]) = []).
Proof.
  split; [|split; [|split]].
  - intros cfg w e t H.
    pose proof (script_publishes_only_on_success cfg w [] e) as Hp.
    unfold run in H. rewrite H in Hp. now apply Hp.
  - intros cfg w e t H. unfold run, script, bind.
    pose proof (find_layers_pure cfg w []) as Ht. rewrite H in *.
    cbn [snd] in Ht. now subst t.
  - intros cfg w sl nl e t Hfind Hload.
    split.
    + unfold run, script. unfold bind at 1. rewrite Hfind. cbn [fst snd].
      unfold route_between_stops. unfold bind at 1. now rewrite Hload.
    + pose proof (load_stops_requestless cfg sl []) as Hr.
      destruct (load_stops_quiet cfg sl []) as [Hm Hp].
      rewrite Hload in *. cbn [snd] in *. auto.
  - intros cfg w sl nl os on sorted k e Hs Hn Hf Hsort request Hk Hok Hfail.
    destruct (run_loaded_fail cfg w sl nl os on sorted Hs Hn Hf Hsort k e Hk Hok Hfail)
      as (t & Hrun & Hreq & Hm & Hp).
    exists t. fold request in Hrun, Hreq. split; [exact Hrun|].
    trace_simpl. rewrite Hreq, Hm, Hp. repeat split.
    rewrite seq_app, map_app. reflexivity.
Qed.

Lemma errors_abort_the_run_witness :
  published (snd (run default_config mixed_world)) = []
  /\ run default_config empty_world
     = (Raise (Exception "Stops layer not found: 'my_stops_points'"), [])
  /\ (run default_config mixed_world
      = (Raise TypeError,
         [Print "Could not sort features. Ensure the 'order_id' field contains sortable values (like numbers)."])
      /\ path_requests (snd (run default_config mixed_world)) = [])
  /\ exists t,
       run default_config broken_world
       = (Raise (QgsProcessingException "no route"), t)
       /\ map START_POINT (path_requests t)
          = ["10.0,0.0 [EPSG:4326]"; "0.0,0.0 [EPSG:4326]"]
       /\ merge_requests t = []
       /\ published t = [].
Proof.
  destruct errors_abort_the_run as (Hany & Hlookup & Hload & Hengine).
  split; [|split; [|split]].
  - apply (Hany default_config mixed_world TypeError). reflexivity.
  - apply (Hlookup default_config empty_world _ []). reflexivity.
  - destruct (Hload default_config mixed_world mixed_stops example_network TypeError
                [Print "Could not sort features. Ensure the 'order_id' field contains sortable values (like numbers)."])
      as (Hrun & Hreq & _).
    + reflexivity.
    + reflexivity.
    + split; [exact Hrun | now rewrite Hrun].
  - destruct (Hengine default_config broken_world example_stops example_network [] []
                [stop (PInt 1) 10 0; stop (PInt 2) 0 0; stop (PInt 3) 5 5]
                1 (QgsProcessingException "no route"))
      as (t & Hrun & Hreq & Hm & Hp).
    + reflexivity.
    + reflexivity.
    + simpl. now left.
    + reflexivity.
    + simpl. lia.
    + intros j t Hj. assert (j = 0) as -> by lia. eexists. reflexivity.
    + intros t. reflexivity.
    + eexists. split; [exact Hrun|]. rewrite Hreq, Hm, Hp.
      repeat split; reflexivity.
Defined.

(** C3.  The loader sorts the stop features ascending by the value of
    the configured order field, and stops with equal values keep the order
    in which they were read.  When every stop has the field and the values
    are mutually comparable the sort returns; whenever it returns, the
    result is a rearrangement of the features read, no stop stands before
    one whose value is smaller, and for every value [v] the stops with
    value [v] are in the order they were read in. *)
Theorem loader_sort_ascending_and_stable
  (cfg : Config) (stops_features : list QgsFeature) (t : Trace) :
  let key := fun f => getitem f (order_field_name cfg) in
  (keys_comparable key stops_features ->
     exists sorted, sort_stops_features cfg stops_features t = (Ok sorted, t))
  /\ (forall sorted t',
        sort_stops_features cfg stops_features t = (Ok sorted, t') ->
        Permutation stops_features sorted
        /\ StronglySorted (key_le key) sorted
        /\ forall v, filter (key_is key v) sorted
                     = filter (key_is key v) stops_features).
Proof.
  intros key. unfold sort_stops_features. fold key. split.
  - intros Hc. destruct (list_sort_total key _ Hc) as [sorted ->].
    exists sorted. reflexivity.
  - intros sorted t' H.
    destruct (list_sort key stops_features) as [l|e] eqn:E.
    + inversion H; subst. now apply list_sort_spec.
    + unfold bind, print, emit, raise in H. discriminate.
Qed.

Lemma loader_sort_ascending_and_stable_witness :
  (exists sorted, sort_stops_features default_config tied_stops [] = (Ok sorted, []))
  /\ forall v,
       filter (key_is (fun f => getitem f "order_id") v)
         [stop (PInt 1) 10 0; stop (PInt 1) 5 0; stop (PInt 2) 0 0; stop (PInt 2) 5 5]
       = filter (key_is (fun f => getitem f "order_id") v) tied_stops.
Proof.
  split.
  - apply (proj1 (loader_sort_ascending_and_stable default_config tied_stops [])).
    intros x y Hx Hy. simpl in Hx, Hy.
    destruct Hx as [<-|[<-|[<-|[<-|[]]]]]; destruct Hy as [<-|[<-|[<-|[<-|[]]]]];
      do 2 eexists; (split; [reflexivity|]); split; reflexivity.
  - apply (proj2 (loader_sort_ascending_and_stable default_config tied_stops [])
             _ []).
    reflexivity.
Defined.

(** C4, as the script has it.  When the configured order field is not
    among the fields of the stops layer, the run ends in an exception of
    the script before any sorting and before any path request: the trace
    of the run is empty (a failed sort prints a notice, a request is an
    event), and the features, sortable or not, play no part.  The lookup
    of the network layer comes before the field check: when it finds a
    layer the exception names the missing field and the stops layer, and
    when it finds none the exception names the missing network layer. *)
Theorem missing_order_field_fails_first
  (cfg : Config) (w : World) (stops_layer : QgsVectorLayer)
  (other_stops : list QgsVectorLayer) :
  mapLayersByName w (stops_layer_name cfg) = stops_layer :: other_stops ->
  ~ In (order_field_name cfg) (fields stops_layer) ->
  run cfg w =
    (Raise (Exception
       match mapLayersByName w (network_layer_name cfg) with
       | _ :: _ => "Order field '" ++ order_field_name cfg
                   ++ "' not found in layer '" ++ stops_layer_name cfg ++ "'"
       | [] => "Network layer not found: '" ++ network_layer_name cfg ++ "'"
       end),
     []).
Proof.
  intros Hs Hf. apply indexFromName_absent in Hf.
  unfold run, script, bind, find_layers. rewrite Hs.
  destruct (mapLayersByName w (network_layer_name cfg)) as [|network_layer others].
  - reflexivity.
  - unfold ret. cbn [fst snd]. unfold route_between_stops, bind, load_stops.
    rewrite Hf. reflexivity.
Qed.

Lemma missing_order_field_fails_first_witness :
  run default_config unordered_world =
    (Raise (Exception "Order field 'order_id' not found in layer 'my_stops_points'"), []).
Proof.
  apply (missing_order_field_fails_first default_config unordered_world
           unordered_stops []).
  - reflexivity.
  - simpl. intros [H|[]]. discriminate.
Defined.

(** C4, as the specification states it, fails.  In a project that has the
    stops layer without the order field and no network layer, the field is
    absent from the schema of the stops layer, yet the run does not report
    the field: it ends in "Network layer not found". *)
Lemma missing_order_field_not_always_reported :
  mapLayersByName unordered_roadless_world (stops_layer_name default_config)
  = [unordered_stops]
  /\ ~ In (order_field_name default_config) (fields unordered_stops)
  /\ run default_config unordered_roadless_world
     = (Raise (Exception "Network layer not found: 'my_road_network'"), [])
  /\ ~ exists t,
        run default_config unordered_roadless_world
        = (Raise (Exception
             "Order field 'order_id' not found in layer 'my_stops_points'"), t).
Proof.
  split; [reflexivity|]. split; [|split].
  - simpl. intros [H|[]]. discriminate.
  - reflexivity.
  - intros (t & H). discriminate.
Qed.

(** C5.  When loading yields fewer than two stops (none, or exactly one)
    the run ends in the exception "Fewer than two stops found in the layer.
    Cannot calculate a route." and its trace is empty: no path request was
    issued. *)
Theorem fewer_than_two_stops_fails
  (cfg : Config) (w : World) (stops_layer network_layer : QgsVectorLayer)
  (other_stops other_networks : list QgsVectorLayer) (sorted : list QgsFeature) :
  mapLayersByName w (stops_layer_name cfg) = stops_layer :: other_stops ->
  mapLayersByName w (network_layer_name cfg) = network_layer :: other_networks ->
  In (order_field_name cfg) (fields stops_layer) ->
  list_sort (fun f => getitem f (order_field_name cfg)) (getFeatures stops_layer)
    = Ok sorted ->
  List.length sorted < 2 ->
  run cfg w =
    (Raise (Exception
       "Fewer than two stops found in the layer. Cannot calculate a route."), [])
  /\ path_requests (snd (run cfg w)) = [].
Proof.
  intros Hs Hn Hf Hsort Hlen.
  assert (Hidx : indexFromName (fields stops_layer) (order_field_name cfg) <> (-1)%Z).
  { intros E. now apply indexFromName_absent in E. }
  assert (E : run cfg w =
    (Raise (Exception
       "Fewer than two stops found in the layer. Cannot calculate a route."), [])).
  { unfold run. rewrite (script_after_lookup _ _ _ _ _ _ Hs Hn).
    unfold route_between_stops. unfold bind at 1.
    now rewrite (load_stops_few cfg stops_layer sorted Hidx Hsort [] Hlen). }
  split; [exact E | now rewrite E].
Qed.

Lemma fewer_than_two_stops_fails_witness :
  run default_config single_stop_world =
    (Raise (Exception
       "Fewer than two stops found in the layer. Cannot calculate a route."), [])
  /\ path_requests (snd (run default_config single_stop_world)) = [].
Proof.
  apply (fewer_than_two_stops_fails default_config single_stop_world
           single_stop example_network [] [] [stop (PInt 1) 5 5]).
  - reflexivity.
  - reflexivity.
  - simpl. now left.
  - reflexivity.
  - simpl. lia.
Defined.

(** C6.  For every non-empty sequence of planned segments the merge step
    sends exactly one merge request, whose LAYERS entry is that sequence
    itself: the same segments in the same order, none dropped, none
    repeated.  When the merge raises nothing is published; when it answers,
    its answer is the one layer published, renamed.  So if the merge
    operation puts the features of its input layers together in the order
    of LAYERS, the published route has the features of the segments in
    planner order. *)
Theorem merge_receives_segments_in_order
  (w : World) (network_layer : QgsVectorLayer)
  (route_segments : list QgsVectorLayer) (t : Trace) :
  route_segments <> [] ->
  let params :=
    {| LAYERS := route_segments; CRS := crs network_layer; MERGE_OUTPUT := "memory:" |} in
  let after := snd (merge_and_add_to_project w network_layer route_segments t) in
  let t1 := t ++ [Print "Merging route segments..."] in
  merge_requests after = merge_requests t ++ [params]
  /\ (forall e, mergevectorlayers w t1 params = Raise e ->
        published after = published t)
  /\ (forall out, mergevectorlayers w t1 params = Ok out ->
        published after
        = published t ++ [setName out "Multi-Stop Route (from Layer)"])
  /\ ((forall t' p out, mergevectorlayers w t' p = Ok out ->
         getFeatures out = flat_map getFeatures (LAYERS p)) ->
      forall out, mergevectorlayers w t1 params = Ok out ->
        getFeatures (setName out "Multi-Stop Route (from Layer)")
        = flat_map getFeatures route_segments).
Proof.
  intros Hne params after t1. destruct route_segments as [|s segs]; [congruence|].
  fold (merge_params_of network_layer (s :: segs)) in params.
  split; [apply merge_and_add_requests|].
  subst after. rewrite merge_and_add_unfold. cbv zeta. fold t1. fold params.
  repeat split.
  - intros e He. rewrite He. cbn [snd]. subst t1. now trace_simpl.
  - intros out Hout. rewrite Hout. cbn [snd]. subst t1. now trace_simpl.
  - intros Hcat out Hout. apply (Hcat _ _ _ Hout).
Qed.

Lemma merge_receives_segments_in_order_witness :
  merge_requests
    (snd (merge_and_add_to_project example_world example_network
            [single_stop; example_stops] []))
  = [mkMergeParams [single_stop; example_stops] (mkCrs "EPSG:3857") "memory:"]
  /\ map getFeatures
       (published
          (snd (merge_and_add_to_project example_world example_network
                  [single_stop; example_stops] [])))
     = [getFeatures single_stop ++ getFeatures example_stops].
Proof.
  destruct (merge_receives_segments_in_order example_world example_network
              [single_stop; example_stops] [])
    as (Hreq & _ & Hout & Hcat).
  - discriminate.
  - split; [exact Hreq|].
    assert (Hconcat : forall t' p out,
               mergevectorlayers example_world t' p = Ok out ->
               getFeatures out = flat_map getFeatures (LAYERS p)).
    { intros t' p out H. injection H as <-. reflexivity. }
    rewrite (Hout _ eq_refl). cbn [published flat_map app map].
    rewrite (Hcat Hconcat _ eq_refl). reflexivity.
Defined.

(** C7, as the script has it.  The strategy is not a configuration
    variable: under every configuration and in every project, every path
    request carries STRATEGY = 1, the value the script's comment names
    Fastest ("0 for Shortest, 1 for Fastest"). *)
Theorem strategy_is_always_fastest (cfg : Config) (w : World) :
  Forall (fun p => STRATEGY p = 1%Z) (path_requests (snd (run cfg w))).
Proof.
  eapply Forall_impl; [|apply (script_fixed_settings cfg w []); constructor].
  intros p (H & _). exact H.
Qed.

(** C7, as the specification states it, fails.  The two requests of the
    example project carry STRATEGY = 1, and there is no option of the
    configuration that takes the two values 0 (Shortest) and 1 (Fastest)
    and that every path request follows: for a configuration that would
    select Shortest, the project [world_for] still receives a request with
    STRATEGY = 1. *)
Lemma strategy_is_not_configurable :
  map STRATEGY (path_requests (snd (run default_config example_world))) = [1%Z; 1%Z]
  /\ ~ exists strategy : Config -> Z,
        (exists cfg, strategy cfg = 0%Z)
        /\ (exists cfg, strategy cfg = 1%Z)
        /\ forall cfg w,
             Forall (fun p => STRATEGY p = strategy cfg)
                    (path_requests (snd (run cfg w))).
Proof.
  split; [reflexivity|].
  intros (strategy & (cfg & Hshortest) & _ & Hall).
  specialize (Hall cfg (world_for cfg)).
  pose proof (script_fixed_settings cfg (world_for cfg) [] (Forall_nil _)) as Hfixed.
  fold (run cfg (world_for cfg)) in Hfixed.
  pose proof (world_for_requests cfg) as Hne.
  destruct (path_requests (snd (run cfg (world_for cfg)))) as [|p ps]; [congruence|].
  inversion Hall as [|? ? Hp _]; subst.
  inversion Hfixed as [|? ? (Hq & _) _]; subst.
  rewrite Hshortest in Hp. rewrite Hq in Hp. discriminate.
Qed.

(** C8, as the script has it.  With no segment to merge the last step
    does not raise: it prints "No route segments were calculated." and
    returns, without a merge request and without publishing a layer.  In a
    run of the script the case does not arise: the stops that load are at
    least two, and a planner that returns has collected one segment less
    than there are stops, so at least one. *)
Theorem merge_of_no_segments_only_prints
  (w : World) (network_layer : QgsVectorLayer) (t : Trace) :
  merge_and_add_to_project w network_layer [] t
  = (Ok tt, t ++ [Print "No route segments were calculated."])
  /\ merge_requests (snd (merge_and_add_to_project w network_layer [] t))
     = merge_requests t
  /\ published (snd (merge_and_add_to_project w network_layer [] t))
     = published t
  /\ forall cfg stops_layer t0 coords t1 route_segments t2,
       load_stops cfg stops_layer t0 = (Ok coords, t1) ->
       calculate_route_segments w stops_layer network_layer coords t1
       = (Ok route_segments, t2) ->
       route_segments <> [].
Proof.
  split; [reflexivity|]. split; [|split].
  - unfold merge_and_add_to_project, print, emit. cbn [snd]. now trace_simpl.
  - unfold merge_and_add_to_project, print, emit. cbn [snd]. now trace_simpl.
  - intros cfg sl t0 coords t1 segs t2 Hload Hcalc ->.
    apply load_stops_at_least_two in Hload.
    apply calculate_route_segments_length in Hcalc. simpl in Hcalc. lia.
Qed.

Lemma merge_of_no_segments_only_prints_witness :
  exists route_segments t,
    calculate_route_segments example_world example_stops example_network
      [(10, 0); (0, 0); (5, 5)]%float
      [found_notice default_config (getFeatures example_stops)]
    = (Ok route_segments, t)
    /\ route_segments <> [].
Proof.
  pose (r := calculate_route_segments example_world example_stops example_network
               [(10, 0); (0, 0); (5, 5)]%float
               [found_notice default_config (getFeatures example_stops)]).
  exists (match fst r with Ok segs => segs | Raise _ => [] end), (snd r).
  split; [reflexivity|].
  apply (proj2 (proj2 (proj2
           (merge_of_no_segments_only_prints example_world example_network [])))
           default_config example_stops []
           [(10, 0); (0, 0); (5, 5)]%float
           [found_notice default_config (getFeatures example_stops)]
           _ (snd r)).
  - reflexivity.
  - reflexivity.
Defined.

(** C8, as the specification states it, fails: on an empty sequence of
    segments the merge step of the example project returns normally, so it
    ends in no exception at all. *)
Lemma merge_of_no_segments_does_not_raise :
  merge_and_add_to_project example_world example_network [] []
  = (Ok tt, [Print "No route segments were calculated."])
  /\ ~ exists e t,
        merge_and_add_to_project example_world example_network [] [] = (Raise e, t).
Proof. split; [reflexivity|]. intros (e & t & H). discriminate. Qed.

(** C9.  When the lookup of the stops layer name (or of the network layer
    name) returns several layers, the script takes the first of them and
    goes on with it: the lookup step returns the two first matches without
    an exception, and the run is the rest of the script on those two
    layers, whatever the other matches are. *)
Theorem first_match_is_selected
  (cfg : Config) (w : World) (stops_layer network_layer : QgsVectorLayer)
  (other_stops other_networks : list QgsVectorLayer) :
  mapLayersByName w (stops_layer_name cfg) = stops_layer :: other_stops ->
  mapLayersByName w (network_layer_name cfg) = network_layer :: other_networks ->
  (forall t, find_layers cfg w t = (Ok (stops_layer, network_layer), t))
  /\ run cfg w = route_between_stops cfg w stops_layer network_layer [].
Proof.
  intros Hs Hn. split.
  - intros t. now apply (find_layers_first _ _ _ _ other_stops other_networks).
  - unfold run. now apply (script_after_lookup _ _ _ _ other_stops other_networks).
Qed.

Lemma first_match_is_selected_witness :
  (forall t, find_layers default_config crowded_world t
             = (Ok (example_stops, example_network), t))
  /\ run default_config crowded_world
     = route_between_stops default_config crowded_world example_stops example_network [].
Proof.
  apply (first_match_is_selected default_config crowded_world
           example_stops example_network
           [single_stop]
           [mkLayer "my_road_network" [] [] (mkCrs "EPSG:2180")]);
    reflexivity.
Defined.

(** C10.  Every request the planner sends to the path engine names the
    edge-cost attribute "cost", under every configuration and in every
    project: no configuration variable reaches that entry. *)
Theorem speed_field_is_cost (cfg : Config) (w : World) :
  Forall (fun p => SPEED_FIELD p = "cost") (path_requests (snd (run cfg w))).
Proof.
  eapply Forall_impl; [|apply (script_fixed_settings cfg w []); constructor].
  intros p (_ & H & _). exact H.
Qed.

(** * Further properties of the script *)

(** ** More on [<] and on [list.sort] *)

Lemma py_le_antisym (a b : PyVal) : py_le a b -> py_le b a -> a = b.
Proof.
  unfold py_le. destruct a as [x|x], b as [y|y]; simpl; intros H1 H2;
    try discriminate; injection H1 as E1; injection H2 as E2; f_equal.
  - apply Z.ltb_ge in E1, E2. lia.
  - unfold String.ltb in E1, E2. rewrite String.compare_antisym in E1.
    destruct (String.compare x y) eqn:E; simpl in *; try discriminate.
    now apply String.compare_eq_iff.
Qed.

Lemma py_lt_diff_type (a b : PyVal) :
  same_type a b = false -> py_lt a b = Raise TypeError.
Proof. destruct a, b; simpl; intros H; try discriminate; reflexivity. Qed.

Lemma same_type_refl (a : PyVal) : same_type a a = true.
Proof. now destruct a. Qed.

Lemma same_type_sym (a b : PyVal) : same_type a b = same_type b a.
Proof. now destruct a, b. Qed.

Lemma same_type_false_l (a b c : PyVal) :
  same_type a b = false -> same_type c b = true -> same_type a c = false.
Proof. now destruct a, b, c. Qed.

Lemma sorted_before {A} (R : A -> A -> Prop) (l1 l2 : list A) (x : A) :
  StronglySorted R (l1 ++ x :: l2) -> Forall (fun y => R y x) l1.
Proof.
  induction l1 as [|a l1 IH]; simpl; intros H; [constructor|].
  inversion H as [|? ? Hs Hall]; subst. constructor; [|now apply IH].
  rewrite Forall_forall in Hall. apply Hall. apply in_or_app. right. now left.
Qed.

(** Two sorted arrangements of the same elements are equal when no two
    distinct elements are each before the other. *)
Lemma sorted_permutation_unique {A} (R : A -> A -> Prop) (l : list A) :
  forall l',
    (forall x y, In x l -> In y l -> R x y -> R y x -> x = y) ->
    StronglySorted R l -> StronglySorted R l' -> Permutation l l' -> l = l'.
Proof.
  induction l as [|a l IH]; intros l' Hanti Hl Hl' Hp.
  - apply Permutation_nil in Hp. now subst.
  - destruct l' as [|b l'].
    { apply Permutation_sym, Permutation_nil in Hp. discriminate. }
    inversion Hl as [|? ? Hs Hall]; subst.
    inversion Hl' as [|? ? Hs' Hall']; subst.
    rewrite Forall_forall in Hall, Hall'.
    assert (Hab : a = b).
    { assert (Hina : In a (b :: l')) by (eapply Permutation_in; [exact Hp | now left]).
      assert (Hinb : In b (a :: l)).
      { eapply Permutation_in; [apply Permutation_sym; exact Hp | now left]. }
      destruct Hina as [->|Hina]; [reflexivity|].
      destruct Hinb as [->|Hinb]; [reflexivity|].
      apply Hanti; [now left | now right | now apply Hall | now apply Hall']. }
    subst b. f_equal. apply IH; auto.
    + intros x y Hx Hy. apply Hanti; now right.
    + eapply Permutation_cons_inv. exact Hp.
Qed.

Section ListSortMore.
Context {A : Type}.
Variable key : A -> result PyVal.

(** An element that is not smaller than any of the sorted ones goes last. *)
Lemma insert_last (kx : PyVal * A) (sorted : list (PyVal * A)) :
  Forall (fun ky => keyed_le ky kx) sorted ->
  insert kx sorted = Ok (sorted ++ [kx]).
Proof.
  induction sorted as [|ky s IH]; simpl; intros H; [reflexivity|].
  inversion H as [|? ? Hky Hs]; subst.
  unfold keyed_le, py_le in Hky. rewrite Hky, (IH Hs). reflexivity.
Qed.

Lemma insert_all_sorted (rest : list (PyVal * A)) : forall sorted,
  StronglySorted keyed_le (sorted ++ rest) ->
  insert_all sorted rest = Ok (sorted ++ rest).
Proof.
  induction rest as [|kx rest IH]; simpl; intros sorted H.
  - now rewrite app_nil_r.
  - rewrite (insert_last kx sorted (sorted_before _ _ _ _ H)).
    rewrite (IH (sorted ++ [kx])); rewrite <- app_assoc; [reflexivity | exact H].
Qed.

(** An element of another type than the sorted ones stops the insertion
    at the first comparison. *)
Lemma insert_type_error (kx : PyVal * A) (sorted : list (PyVal * A)) :
  pairwise_same_type sorted ->
  (exists ky, In ky sorted /\ same_type (fst kx) (fst ky) = false) ->
  insert kx sorted = Raise TypeError.
Proof.
  intros Hsame (ky & Hin & Hdiff). destruct sorted as [|k0 s]; [destruct Hin|].
  simpl. rewrite py_lt_diff_type; [reflexivity|].
  apply (same_type_false_l _ _ _ Hdiff). apply Hsame; [now left | exact Hin].
Qed.

Lemma insert_all_type_error (rest : list (PyVal * A)) : forall sorted,
  pairwise_same_type sorted ->
  (exists p q, In p (sorted ++ rest) /\ In q (sorted ++ rest)
               /\ same_type (fst p) (fst q) = false) ->
  insert_all sorted rest = Raise TypeError.
Proof.
  induction rest as [|kx rest IH]; intros sorted Hsame (p & q & Hp & Hq & Hpq).
  - rewrite app_nil_r in Hp, Hq. rewrite (Hsame p q Hp Hq) in Hpq. discriminate.
  - simpl.
    destruct (forallb (fun ky => same_type (fst kx) (fst ky)) sorted) eqn:Eall.
    + rewrite forallb_forall in Eall.
      destruct (insert_total kx sorted Eall) as [s' E]. rewrite E.
      pose proof (insert_Permutation _ _ _ E) as Hperm.
      assert (Hin : forall z, In z (sorted ++ kx :: rest) -> In z (s' ++ rest)).
      { intros z Hz. apply in_app_or in Hz. apply in_or_app.
        destruct Hz as [Hz|[<-|Hz]].
        - left. eapply Permutation_in; [exact Hperm | now right].
        - left. eapply Permutation_in; [exact Hperm | now left].
        - now right. }
      apply IH.
      * intros x y Hx Hy.
        apply (Permutation_in _ (Permutation_sym Hperm)) in Hx.
        apply (Permutation_in _ (Permutation_sym Hperm)) in Hy.
        destruct Hx as [<-|Hx], Hy as [<-|Hy].
        -- apply same_type_refl.
        -- now apply Eall.
        -- rewrite same_type_sym. now apply Eall.
        -- now apply Hsame.
      * exists p, q. repeat split; auto.
    + rewrite (insert_type_error kx sorted Hsame); [reflexivity|].
      destruct (existsb (fun ky => negb (same_type (fst kx) (fst ky))) sorted) eqn:Eex.
      * apply existsb_exists in Eex. destruct Eex as (ky & Hky & Hneg).
        exists ky. split; [exact Hky|]. now apply negb_true_iff in Hneg.
      * exfalso. assert (Hall : forallb (fun ky => same_type (fst kx) (fst ky)) sorted = true).
        { apply forallb_forall. intros ky Hky.
          destruct (same_type (fst kx) (fst ky)) eqn:Es; [reflexivity|].
          assert (Hex : existsb (fun ky => negb (same_type (fst kx) (fst ky))) sorted = true).
          { apply existsb_exists. exists ky. split; [exact Hky|]. now rewrite Es. }
          congruence. }
        congruence.
Qed.

(** A sort over keys that all exist ends in [TypeError] as soon as two of
    them have different types. *)
Lemma list_sort_type_error (l : list A) :
  keys_present key l -> keys_mixed key l -> list_sort key l = Raise TypeError.
Proof.
  intros Hpres (x & y & a & b & Hx & Hy & Ha & Hb & Hab). unfold list_sort.
  destruct (compute_keys_total key l Hpres) as [kl Ek]. rewrite Ek.
  destruct (compute_keys_spec key _ _ Ek) as [Hm Hk]. rewrite Forall_forall in Hk.
  rewrite (insert_all_type_error kl []); [reflexivity | intros ? ? [] |].
  simpl. rewrite <- Hm in Hx, Hy.
  apply in_map_iff in Hx. destruct Hx as (p & <- & Hp).
  apply in_map_iff in Hy. destruct Hy as (q & <- & Hq).
  exists p, q. repeat split; auto.
  rewrite (Hk p Hp) in Ha. rewrite (Hk q Hq) in Hb.
  inversion Ha; inversion Hb; subst. exact Hab.
Qed.

(** Elements already in ascending order are left where they are. *)
Lemma list_sort_sorted (l : list A) :
  keys_present key l -> StronglySorted (key_le key) l -> list_sort key l = Ok l.
Proof.
  intros Hpres Hs. unfold list_sort.
  destruct (compute_keys_total key l Hpres) as [kl Ek]. rewrite Ek.
  destruct (compute_keys_spec key _ _ Ek) as [Hm Hk].
  rewrite (insert_all_sorted kl []); [simpl; now rewrite Hm|].
  simpl. clear Ek Hpres. revert l Hm Hs.
  induction kl as [|p kl IH]; intros l Hm Hs; [constructor|].
  inversion Hk as [|? ? Hp Hk']; subst. simpl in Hs.
  inversion Hs as [|? ? Hs' Hall]; subst.
  constructor; [now apply (IH Hk' (map snd kl))|].
  rewrite Forall_forall in *. intros q Hq.
  destruct (Hall (snd q) (in_map snd _ _ Hq)) as (a & b & Ha & Hb & Hle).
  unfold keyed_by in Hp. rewrite Hp in Ha. rewrite (Hk' q Hq) in Hb.
  inversion Ha; inversion Hb; subst. exact Hle.
Qed.

(** With pairwise distinct keys the result does not depend on the order
    in which the elements were read. *)
Lemma list_sort_read_order (l1 l2 s1 s2 : list A) :
  Permutation l1 l2 ->
  (forall x y, In x l1 -> In y l1 -> key x = key y -> x = y) ->
  list_sort key l1 = Ok s1 -> list_sort key l2 = Ok s2 -> s1 = s2.
Proof.
  intros Hp Hinj H1 H2.
  destruct (list_sort_spec key _ _ H1) as (Hp1 & Hs1 & _).
  destruct (list_sort_spec key _ _ H2) as (Hp2 & Hs2 & _).
  apply (sorted_permutation_unique (key_le key)); auto.
  - intros x y Hx Hy (a & b & Ha & Hb & Hab) (b' & a' & Hb' & Ha' & Hba).
    apply Hinj.
    + eapply Permutation_in; [apply Permutation_sym; exact Hp1 | exact Hx].
    + eapply Permutation_in; [apply Permutation_sym; exact Hp1 | exact Hy].
    + rewrite Ha, Hb. f_equal. rewrite Ha in Ha'. rewrite Hb in Hb'.
      inversion Ha'; inversion Hb'; subst. now apply py_le_antisym.
  - eapply perm_trans; [apply Permutation_sym; exact Hp1|].
    eapply perm_trans; [exact Hp | exact Hp2].
Qed.
End ListSortMore.

(** ** More on the trace of the loop *)

Section LoopTrace.
Variable w : World.
Variable network_layer : QgsVectorLayer.
Variable stops_crs : QgsCoordinateReferenceSystem.
Variable sorted_stops_coords : list (float * float).

Local Notation "'loop'" :=
  (segment_loop w network_layer stops_crs sorted_stops_coords).
Local Notation "'request'" :=
  (segment_request w network_layer stops_crs sorted_stops_coords).
Local Notation "'events'" :=
  (segment_events w network_layer stops_crs sorted_stops_coords).

Lemma path_requests_segment_events (k : nat) : forall i,
  path_requests (flat_map events (seq i k)) = map request (seq i k).
Proof.
  induction k as [|k IH]; intros i; [reflexivity|].
  cbn [seq flat_map map]. rewrite path_requests_app, IH. reflexivity.
Qed.

Lemma segment_events_quiet (k : nat) : forall i,
  merge_requests (flat_map events (seq i k)) = []
  /\ published (flat_map events (seq i k)) = [].
Proof.
  induction k as [|k IH]; intros i; [split; reflexivity|].
  cbn [seq flat_map]. rewrite merge_requests_app, published_app.
  destruct (IH (S i)) as [-> ->]. split; reflexivity.
Qed.

(** Whatever the engine answers, the loop leaves behind the events of its
    first [k] iterations; it returns only after all of them, and an
    exception it ends in is one the engine raised. *)
Lemma segment_loop_trace (n : nat) : forall i acc t,
  i + n < List.length sorted_stops_coords ->
  exists k,
    k <= n
    /\ snd (loop n i acc t) = t ++ flat_map events (seq i k)
    /\ (forall segs, fst (loop n i acc t) = Ok segs -> k = n)
    /\ (forall e, fst (loop n i acc t) = Raise e ->
          exists t' p, shortestpathpointtopoint w t' p = Raise e).
Proof.
  induction n as [|n IH]; intros i acc t Hlen.
  - exists 0. cbn [segment_loop seq flat_map]. unfold ret. cbn [fst snd].
    rewrite app_nil_r. repeat split; auto. intros e H. discriminate.
  - rewrite (segment_loop_step w network_layer stops_crs sorted_stops_coords)
      by lia.
    cbv zeta.
    destruct (shortestpathpointtopoint w (t ++ [segment_notice i]) (request i))
      as [l|x] eqn:El.
    + destruct (IH (S i) (acc ++ [l])
                  ((t ++ [segment_notice i]) ++ [RunShortestPath (request i)]))
        as (k & Hk & Htr & Hok & Hraise); [lia|].
      exists (S k). split; [lia|]. split; [|split].
      * rewrite Htr. cbn [seq flat_map]. unfold segment_events at 2.
        now rewrite <- !app_assoc.
      * intros segs H. f_equal. now apply (Hok segs).
      * exact Hraise.
    + exists 1. cbn [fst snd seq flat_map]. split; [lia|]. split; [|split].
      * unfold segment_events. now rewrite app_nil_r, <- app_assoc.
      * intros segs H. discriminate.
      * intros e H. inversion H; subst. eauto.
Qed.
End LoopTrace.

Lemma calculate_route_segments_unfold w stops_layer network_layer coords t :
  calculate_route_segments w stops_layer network_layer coords t =
    match segment_loop w network_layer (crs stops_layer) coords
            (List.length coords - 1) 0 []
            (t ++ [Print "Starting multi-stop shortest path calculation..."]) with
    | (Ok segs, t') => (Ok segs, t' ++ [Print "...calculation finished."])
    | (Raise e, t') => (Raise e, t')
    end.
Proof.
  unfold calculate_route_segments, bind, print, emit, ret.
  destruct (segment_loop w network_layer (crs stops_layer) coords _ 0 [] _)
    as [[segs|e] t']; reflexivity.
Qed.

(** The trace of the planner, whatever the engine answers. *)
Lemma calculate_route_segments_trace w stops_layer network_layer coords t :
  1 <= List.length coords ->
  exists k,
    k <= List.length coords - 1
    /\ snd (calculate_route_segments w stops_layer network_layer coords t)
       = t ++ Print "Starting multi-stop shortest path calculation..."
           :: flat_map (segment_events w network_layer (crs stops_layer) coords) (seq 0 k)
           ++ match fst (calculate_route_segments w stops_layer network_layer coords t) with
              | Ok _ => [Print "...calculation finished."]
              | Raise _ => []
              end
    /\ (forall segs,
          fst (calculate_route_segments w stops_layer network_layer coords t) = Ok segs ->
          k = List.length coords - 1)
    /\ (forall e,
          fst (calculate_route_segments w stops_layer network_layer coords t) = Raise e ->
          exists t' p, shortestpathpointtopoint w t' p = Raise e).
Proof.
  intros Hlen. rewrite calculate_route_segments_unfold.
  destruct (segment_loop_trace w network_layer (crs stops_layer) coords
              (List.length coords - 1) 0 []
              (t ++ [Print "Starting multi-stop shortest path calculation..."]))
    as (k & Hk & Htr & Hok & Hraise); [lia|].
  exists k. split; [exact Hk|].
  destruct (segment_loop w network_layer (crs stops_layer) coords
              (List.length coords - 1) 0 [] _) as [[segs|e] t'];
    cbn [fst snd] in *; subst t'; (split; [|split]).
  - rewrite <- !app_assoc. reflexivity.
  - intros segs' _. now apply (Hok segs).
  - intros e H. discriminate.
  - rewrite <- !app_assoc, app_nil_r. reflexivity.
  - intros segs H. discriminate.
  - exact Hraise.
Qed.

(** ** The loop, call by call *)

Section LoopExact.
Variable w : World.
Variable network_layer : QgsVectorLayer.
Variable stops_crs : QgsCoordinateReferenceSystem.
Variable sorted_stops_coords : list (float * float).

Local Notation "'loop'" :=
  (segment_loop w network_layer stops_crs sorted_stops_coords).
Local Notation "'request'" :=
  (segment_request w network_layer stops_crs sorted_stops_coords).
Local Notation "'events'" :=
  (segment_events w network_layer stops_crs sorted_stops_coords).

Lemma history_step (t : Trace) (i j : nat) (rest : Trace) :
  ((t ++ [segment_notice i]) ++ [RunShortestPath (request i)])
  ++ flat_map events (seq (S i) j) ++ rest
  = t ++ flat_map events (seq i (S j)) ++ rest.
Proof.
  cbn [seq flat_map]. unfold segment_events at 2. now rewrite <- !app_assoc.
Qed.

(** A loop that returns has had an answer to every request, and each
    collected segment is the answer given to its request at the moment it
    was issued. *)
Lemma segment_loop_returns_exact (n : nat) : forall i acc t segs t',
  i + n < List.length sorted_stops_coords ->
  loop n i acc t = (Ok segs, t') ->
  exists new,
    segs = acc ++ new
    /\ List.length new = n
    /\ t' = t ++ flat_map events (seq i n)
    /\ forall j l,
         nth_error new j = Some l ->
         shortestpathpointtopoint w
           (t ++ flat_map events (seq i j) ++ [segment_notice (i + j)])
           (request (i + j)) = Ok l.
Proof.
  induction n as [|n IH]; intros i acc t segs t' Hlen H.
  - inversion H; subst. exists []. rewrite !app_nil_r. repeat split.
    intros j l Hj. destruct j; discriminate.
  - rewrite (segment_loop_step w network_layer stops_crs sorted_stops_coords)
      in H by lia.
    cbv zeta in H.
    destruct (shortestpathpointtopoint w (t ++ [segment_notice i]) (request i))
      as [l0|x] eqn:El; [|discriminate].
    assert (Hlen' : S i + n < List.length sorted_stops_coords) by lia.
    destruct (IH _ _ _ _ _ Hlen' H) as (new & -> & Hn & -> & Hans).
    exists (l0 :: new). split; [now rewrite <- app_assoc|].
    split; [simpl; now rewrite Hn|]. split.
    + rewrite <- (app_nil_r (flat_map events (seq (S i) n))).
      rewrite history_step. now rewrite app_nil_r.
    + intros j l Hj. destruct j as [|j].
      * inversion Hj; subst. rewrite Nat.add_0_r. exact El.
      * cbn [nth_error] in Hj. apply Hans in Hj.
        rewrite history_step in Hj.
        replace (i + S j) with (S i + j) by lia. exact Hj.
Qed.

(** A loop that ends in an exception has had answers up to some request
    [k], and the exception is the one the engine raised on request [k],
    which is the last thing the loop did. *)
Lemma segment_loop_raises_exact (n : nat) : forall i acc t e t',
  i + n < List.length sorted_stops_coords ->
  loop n i acc t = (Raise e, t') ->
  exists k,
    k < n
    /\ t' = (t ++ flat_map events (seq i k) ++ [segment_notice (i + k)])
            ++ [RunShortestPath (request (i + k))]
    /\ shortestpathpointtopoint w
         (t ++ flat_map events (seq i k) ++ [segment_notice (i + k)])
         (request (i + k)) = Raise e
    /\ forall j, j < k ->
         exists l,
           shortestpathpointtopoint w
             (t ++ flat_map events (seq i j) ++ [segment_notice (i + j)])
             (request (i + j)) = Ok l.
Proof.
  induction n as [|n IH]; intros i acc t e t' Hlen H; [discriminate|].
  rewrite (segment_loop_step w network_layer stops_crs sorted_stops_coords)
    in H by lia.
  cbv zeta in H.
  destruct (shortestpathpointtopoint w (t ++ [segment_notice i]) (request i))
    as [l0|x] eqn:El.
  - assert (Hlen' : S i + n < List.length sorted_stops_coords) by lia.
    destruct (IH _ _ _ _ _ Hlen' H) as (k & Hk & -> & Hraise & Hok).
    exists (S k). split; [lia|].
    rewrite history_step in Hraise.
    replace (i + S k) with (S i + k) by lia.
    split; [now rewrite history_step|]. split; [exact Hraise|].
    intros j Hj. destruct j as [|j].
    + exists l0. rewrite Nat.add_0_r. exact El.
    + destruct (Hok j ltac:(lia)) as [l Hl]. exists l.
      rewrite history_step in Hl.
      replace (i + S j) with (S i + j) by lia. exact Hl.
  - inversion H; subst. exists 0. rewrite Nat.add_0_r. cbn [seq flat_map app].
    split; [lia|]. split; [reflexivity|]. split; [exact El|].
    intros j Hj. lia.
Qed.
End LoopExact.

(** ** More on the stages *)

Lemma sort_stops_features_returns cfg fs t sorted t' :
  sort_stops_features cfg fs t = (Ok sorted, t') ->
  list_sort (fun f => getitem f (order_field_name cfg)) fs = Ok sorted /\ t' = t.
Proof.
  unfold sort_stops_features.
  destruct (list_sort _ fs) as [l|e]; unfold ret, bind, print, emit, raise;
    intros H; inversion H; auto.
Qed.

(** What the merge step adds to a trace holds no path request, at most one
    merge request and at most one published layer. *)
Lemma merge_and_add_shape w network_layer segs t :
  exists tail,
    snd (merge_and_add_to_project w network_layer segs t) = t ++ tail
    /\ path_requests tail = []
    /\ (merge_requests tail = [] /\ published tail = []
        \/ segs <> []
           /\ merge_requests tail = [merge_params_of network_layer segs]
           /\ (published tail = []
               \/ exists out, published tail = [setName out route_name])).
Proof.
  destruct segs as [|s segs].
  - exists [Print "No route segments were calculated."]. repeat split. now left.
  - rewrite merge_and_add_unfold. cbv zeta.
    destruct (mergevectorlayers w _ _) as [out|e]; cbn [snd]; rewrite <- app_assoc;
      eexists; (split; [reflexivity|]); (split; [reflexivity|]);
      right; (split; [discriminate|]); (split; [reflexivity|]).
    + right. exists out. reflexivity.
    + now left.
Qed.

Section LoadedTrace.
Variable cfg : Config.
Variable w : World.
Variables stops_layer network_layer : QgsVectorLayer.
Variables other_stops other_networks : list QgsVectorLayer.
Variable sorted : list QgsFeature.

Hypothesis stops_found :
  mapLayersByName w (stops_layer_name cfg) = stops_layer :: other_stops.
Hypothesis network_found :
  mapLayersByName w (network_layer_name cfg) = network_layer :: other_networks.
Hypothesis field_found : In (order_field_name cfg) (fields stops_layer).
Hypothesis sort_returns :
  list_sort (fun f => getitem f (order_field_name cfg)) (getFeatures stops_layer)
  = Ok sorted.
Hypothesis two_stops : 2 <= List.length sorted.

Local Notation "'request'" :=
  (segment_request w network_layer (crs stops_layer) (map asPoint sorted)).
Local Notation "'events'" :=
  (segment_events w network_layer (crs stops_layer) (map asPoint sorted)).

Lemma run_loaded_unfold :
  run cfg w =
    bind (calculate_route_segments w stops_layer network_layer (map asPoint sorted))
         (merge_and_add_to_project w network_layer) [found_notice cfg sorted].
Proof.
  unfold run.
  now rewrite (script_loaded cfg w _ _ _ _ sorted stops_found network_found
                 (field_index cfg stops_layer field_found) sort_returns [] two_stops).
Qed.

(** Whatever the engine and the merge answer: the two opening lines, the
    events of the first [k] iterations, then events without a request. *)
Lemma run_loaded_trace :
  exists k tail,
    k <= List.length sorted - 1
    /\ snd (run cfg w)
       = found_notice cfg sorted
         :: Print "Starting multi-stop shortest path calculation..."
         :: flat_map events (seq 0 k) ++ tail
    /\ path_requests tail = [].
Proof.
  rewrite run_loaded_unfold.
  destruct (calculate_route_segments_trace w stops_layer network_layer
              (map asPoint sorted) [found_notice cfg sorted])
    as (k & Hk & Htr & _); [rewrite length_map; lia|].
  rewrite length_map in Hk. unfold bind.
  destruct (calculate_route_segments w stops_layer network_layer
              (map asPoint sorted) [found_notice cfg sorted]) as [[segs|e] t'];
    cbn [fst snd] in *; subst t'.
  - destruct (merge_and_add_shape w network_layer segs
                ([found_notice cfg sorted]
                 ++ Print "Starting multi-stop shortest path calculation..."
                    :: flat_map events (seq 0 k) ++ [Print "...calculation finished."]))
      as (tail & Htail & Hreq & _).
    exists k, (Print "...calculation finished." :: tail).
    split; [exact Hk|]. split; [|exact Hreq].
    rewrite Htail. cbn [app]. now rewrite <- app_assoc.
  - exists k, []. split; [exact Hk|]. split; [|reflexivity].
    cbn [app]. reflexivity.
Qed.

Lemma run_loaded_requests :
  exists k,
    k <= List.length sorted - 1
    /\ path_requests (snd (run cfg w)) = map request (seq 0 k).
Proof.
  destruct run_loaded_trace as (k & tail & Hk & Htr & Htail).
  exists k. split; [exact Hk|]. rewrite Htr.
  change (found_notice cfg sorted
          :: Print "Starting multi-stop shortest path calculation..."
          :: flat_map events (seq 0 k) ++ tail)
    with ([found_notice cfg sorted;
           Print "Starting multi-stop shortest path calculation..."]
          ++ flat_map events (seq 0 k) ++ tail).
  rewrite !path_requests_app, Htail, path_requests_segment_events, app_nil_r.
  reflexivity.
Qed.

(** The engine answers every request: the run reaches the merge step with
    the N - 1 segments, after the events of all iterations. *)
Lemma run_loaded_planned :
  (forall j t, j + 1 < List.length sorted ->
     exists l, shortestpathpointtopoint w t (request j) = Ok l) ->
  exists segs,
    List.length segs = List.length sorted - 1
    /\ run cfg w =
       merge_and_add_to_project w network_layer segs
         (found_notice cfg sorted
          :: Print "Starting multi-stop shortest path calculation..."
          :: flat_map events (seq 0 (List.length sorted - 1))
          ++ [Print "...calculation finished."]).
Proof.
  intros Hok. rewrite run_loaded_unfold.
  destruct (calculate_route_segments_ok w stops_layer network_layer
              (map asPoint sorted) [found_notice cfg sorted])
    as (segs & t' & Hc & _).
  { now rewrite length_map. }
  { intros j t'. rewrite length_map. apply Hok. }
  destruct (calculate_route_segments_trace w stops_layer network_layer
              (map asPoint sorted) [found_notice cfg sorted])
    as (k & Hk & Htr & Hfull & _); [rewrite length_map; lia|].
  pose proof (calculate_route_segments_length _ _ _ _ _ _ _ Hc) as Hlen.
  rewrite Hc in Htr, Hfull. cbn [fst snd] in Htr, Hfull.
  rewrite (Hfull segs eq_refl) in Htr. rewrite length_map in Htr, Hlen.
  exists segs. split; [exact Hlen|].
  unfold bind. rewrite Hc. now subst t'.
Qed.
End LoadedTrace.

Section LoadedCases.
Variable cfg : Config.
Variable w : World.
Variables stops_layer network_layer : QgsVectorLayer.
Variables other_stops other_networks : list QgsVectorLayer.
Variable sorted : list QgsFeature.

Hypothesis stops_found :
  mapLayersByName w (stops_layer_name cfg) = stops_layer :: other_stops.
Hypothesis network_found :
  mapLayersByName w (network_layer_name cfg) = network_layer :: other_networks.
Hypothesis field_found : In (order_field_name cfg) (fields stops_layer).
Hypothesis sort_returns :
  list_sort (fun f => getitem f (order_field_name cfg)) (getFeatures stops_layer)
  = Ok sorted.
Hypothesis two_stops : 2 <= List.length sorted.

Local Notation "'request'" :=
  (segment_request w network_layer (crs stops_layer) (map asPoint sorted)).
Local Notation "'events'" :=
  (segment_events w network_layer (crs stops_layer) (map asPoint sorted)).
Local Notation "'history'" :=
  (request_history cfg w stops_layer network_layer sorted).

Lemma request_history_eq (j : nat) :
  ([found_notice cfg sorted]
   ++ [Print "Starting multi-stop shortest path calculation..."])
  ++ flat_map events (seq 0 j) ++ [segment_notice (0 + j)]
  = history j.
Proof. reflexivity. Qed.

(** The two ways a run goes on once its stops are loaded: the planner
    returns with the answers, in turn, to all N - 1 requests and the merge
    step runs; or the engine raises on some request [k], which ends the
    run. *)
Lemma run_loaded_cases :
  (exists segs,
     List.length segs = List.length sorted - 1
     /\ (forall j l, nth_error segs j = Some l ->
           shortestpathpointtopoint w (history j) (request j) = Ok l)
     /\ run cfg w =
        merge_and_add_to_project w network_layer segs
          (found_notice cfg sorted
           :: Print "Starting multi-stop shortest path calculation..."
           :: flat_map events (seq 0 (List.length sorted - 1))
           ++ [Print "...calculation finished."]))
  \/ (exists k e,
        k < List.length sorted - 1
        /\ run cfg w = (Raise e, history k ++ [RunShortestPath (request k)])
        /\ shortestpathpointtopoint w (history k) (request k) = Raise e
        /\ forall j, j < k ->
             exists l, shortestpathpointtopoint w (history j) (request j) = Ok l).
Proof.
  rewrite (run_loaded_unfold cfg w _ _ _ _ sorted stops_found network_found
             field_found sort_returns two_stops).
  unfold bind. rewrite calculate_route_segments_unfold. rewrite length_map.
  destruct (segment_loop w network_layer (crs stops_layer) (map asPoint sorted)
              (List.length sorted - 1) 0 []
              ([found_notice cfg sorted]
               ++ [Print "Starting multi-stop shortest path calculation..."]))
    as [[segs|e] t'] eqn:El.
  - left.
    apply segment_loop_returns_exact in El; [|rewrite length_map; lia].
    destruct El as (new & -> & Hn & -> & Hans). exists new.
    split; [exact Hn|]. split.
    + intros j l Hj. rewrite <- request_history_eq. now apply Hans.
    + cbn [app]. reflexivity.
  - right.
    apply segment_loop_raises_exact in El; [|rewrite length_map; lia].
    destruct El as (k & Hk & -> & Hraise & Hok). exists k, e.
    cbn [Nat.add] in *. split; [exact Hk|].
    split; [reflexivity|]. split; [exact Hraise|].
    intros j Hj. destruct (Hok j Hj) as [l Hl]. exists l. exact Hl.
Qed.
End LoadedCases.

Lemma request_history_observed cfg w stops_layer network_layer sorted k p :
  path_requests
    (request_history cfg w stops_layer network_layer sorted k ++ [RunShortestPath p])
  = map (segment_request w network_layer (crs stops_layer) (map asPoint sorted))
      (seq 0 k) ++ [p]
  /\ merge_requests
       (request_history cfg w stops_layer network_layer sorted k ++ [RunShortestPath p])
     = []
  /\ published
       (request_history cfg w stops_layer network_layer sorted k ++ [RunShortestPath p])
     = [].
Proof.
  unfold request_history, found_notice, segment_notice.
  destruct (segment_events_quiet w network_layer (crs stops_layer)
              (map asPoint sorted) k 0) as [Hm Hp].
  repeat split.
  - rewrite path_requests_app. cbn [path_requests flat_map app].
    fold (path_requests
            (flat_map (segment_events w network_layer (crs stops_layer)
                         (map asPoint sorted)) (seq 0 k)
             ++ [Print ("  Calculating segment " ++ str_nat (k + 1) ++ ": from stop "
                        ++ str_nat (k + 1) ++ " to stop " ++ str_nat (k + 2))])).
    rewrite path_requests_app, path_requests_segment_events.
    cbn [path_requests flat_map app]. now rewrite app_nil_r.
  - rewrite merge_requests_app. cbn [merge_requests flat_map app].
    fold (merge_requests
            (flat_map (segment_events w network_layer (crs stops_layer)
                         (map asPoint sorted)) (seq 0 k)
             ++ [Print ("  Calculating segment " ++ str_nat (k + 1) ++ ": from stop "
                        ++ str_nat (k + 1) ++ " to stop " ++ str_nat (k + 2))])).
    rewrite merge_requests_app, Hm. reflexivity.
  - rewrite published_app. cbn [published flat_map app].
    fold (published
            (flat_map (segment_events w network_layer (crs stops_layer)
                         (map asPoint sorted)) (seq 0 k)
             ++ [Print ("  Calculating segment " ++ str_nat (k + 1) ++ ": from stop "
                        ++ str_nat (k + 1) ++ " to stop " ++ str_nat (k + 2))])).
    rewrite published_app, Hp. reflexivity.
Qed.

Lemma merge_history_observed cfg w stops_layer network_layer sorted :
  path_requests (merge_history cfg w stops_layer network_layer sorted)
  = map (segment_request w network_layer (crs stops_layer) (map asPoint sorted))
      (seq 0 (List.length sorted - 1))
  /\ merge_requests (merge_history cfg w stops_layer network_layer sorted) = []
  /\ published (merge_history cfg w stops_layer network_layer sorted) = [].
Proof.
  unfold merge_history, found_notice.
  destruct (segment_events_quiet w network_layer (crs stops_layer)
              (map asPoint sorted) (List.length sorted - 1) 0) as [Hm Hp].
  repeat split.
  - cbn [path_requests flat_map app].
    fold (path_requests
            (flat_map (segment_events w network_layer (crs stops_layer)
                         (map asPoint sorted)) (seq 0 (List.length sorted - 1))
             ++ [Print "...calculation finished."; Print "Merging route segments..."])).
    rewrite path_requests_app, path_requests_segment_events.
    cbn [path_requests flat_map app]. now rewrite app_nil_r.
  - cbn [merge_requests flat_map app].
    fold (merge_requests
            (flat_map (segment_events w network_layer (crs stops_layer)
                         (map asPoint sorted)) (seq 0 (List.length sorted - 1))
             ++ [Print "...calculation finished."; Print "Merging route segments..."])).
    rewrite merge_requests_app, Hm. reflexivity.
  - cbn [published flat_map app].
    fold (published
            (flat_map (segment_events w network_layer (crs stops_layer)
                         (map asPoint sorted)) (seq 0 (List.length sorted - 1))
             ++ [Print "...calculation finished."; Print "Merging route segments..."])).
    rewrite published_app, Hp. reflexivity.
Qed.

(** The merge step on a non-empty list of segments, from the trace that
    the planner leaves behind. *)
Lemma merge_after_plan cfg w stops_layer network_layer sorted s segs :
  merge_and_add_to_project w network_layer (s :: segs)
    (found_notice cfg sorted
     :: Print "Starting multi-stop shortest path calculation..."
     :: flat_map (segment_events w network_layer (crs stops_layer) (map asPoint sorted))
          (seq 0 (List.length sorted - 1))
     ++ [Print "...calculation finished."])
  = match mergevectorlayers w (merge_history cfg w stops_layer network_layer sorted)
            (merge_params_of network_layer (s :: segs)) with
    | Ok out =>
        (Ok tt,
         merge_history cfg w stops_layer network_layer sorted
         ++ [RunMerge (merge_params_of network_layer (s :: segs));
             AddMapLayer (setName out route_name);
             Print "Multi-stop route created and added to the project as 'Multi-Stop Route (from Layer)'."])
    | Raise e =>
        (Raise e,
         merge_history cfg w stops_layer network_layer sorted
         ++ [RunMerge (merge_params_of network_layer (s :: segs))])
    end.
Proof.
  rewrite merge_and_add_unfold. cbv zeta.
  assert (E : (found_notice cfg sorted
               :: Print "Starting multi-stop shortest path calculation..."
               :: flat_map (segment_events w network_layer (crs stops_layer)
                              (map asPoint sorted)) (seq 0 (List.length sorted - 1))
               ++ [Print "...calculation finished."])
              ++ [Print "Merging route segments..."]
              = merge_history cfg w stops_layer network_layer sorted).
  { unfold merge_history. cbn [app]. now rewrite <- app_assoc. }
  rewrite E. reflexivity.
Qed.

(** ** The extra properties *)

(** X1.  A name that no layer of the project has ends the run at once, with
    an empty trace, in the exception that quotes the name.  The stops layer
    is looked up first: when both names are unknown, the stops layer is the
    one reported. *)
Theorem missing_layer_is_reported (cfg : Config) (w : World) :
  (mapLayersByName w (stops_layer_name cfg) = [] ->
   run cfg w =
     (Raise (Exception ("Stops layer not found: '" ++ stops_layer_name cfg ++ "'")), []))
  /\ (mapLayersByName w (stops_layer_name cfg) <> [] ->
      mapLayersByName w (network_layer_name cfg) = [] ->
      run cfg w =
        (Raise (Exception ("Network layer not found: '"
                           ++ network_layer_name cfg ++ "'")), [])).
Proof.
  unfold run, script, bind, find_layers. split.
  - intros ->. reflexivity.
  - intros Hs ->. destruct (mapLayersByName w (stops_layer_name cfg)); [congruence|].
    reflexivity.
Qed.

Lemma missing_layer_is_reported_witness :
  run default_config empty_world
  = (Raise (Exception "Stops layer not found: 'my_stops_points'"), [])
  /\ run default_config roadless_world
     = (Raise (Exception "Network layer not found: 'my_road_network'"), []).
Proof.
  split.
  - apply (proj1 (missing_layer_is_reported default_config empty_world)).
    reflexivity.
  - apply (proj2 (missing_layer_is_reported default_config roadless_world)).
    + discriminate.
    + reflexivity.
Defined.

(** X3.  When every stop has the order field but two stops hold values of
    different types (an integer and a string), the run prints the "Could
    not sort features" notice and ends in [TypeError]; nothing else
    happens, so no path is requested. *)
Theorem mixed_order_values_fail
  (cfg : Config) (w : World) (stops_layer network_layer : QgsVectorLayer)
  (other_stops other_networks : list QgsVectorLayer) :
  mapLayersByName w (stops_layer_name cfg) = stops_layer :: other_stops ->
  mapLayersByName w (network_layer_name cfg) = network_layer :: other_networks ->
  In (order_field_name cfg) (fields stops_layer) ->
  keys_present (fun f => getitem f (order_field_name cfg)) (getFeatures stops_layer) ->
  keys_mixed (fun f => getitem f (order_field_name cfg)) (getFeatures stops_layer) ->
  run cfg w =
    (Raise TypeError,
     [Print ("Could not sort features. Ensure the '" ++ order_field_name cfg
             ++ "' field contains sortable values (like numbers).")]).
Proof.
  intros Hs Hn Hf Hpres Hmixed. unfold run.
  rewrite (script_after_lookup _ _ _ _ _ _ Hs Hn).
  unfold route_between_stops. unfold bind at 1. unfold load_stops.
  destruct (Z.eqb_spec (indexFromName (fields stops_layer) (order_field_name cfg)) (-1))
    as [E|_]; [now apply indexFromName_absent in E|].
  unfold bind at 1. unfold sort_stops_features.
  rewrite (list_sort_type_error _ _ Hpres Hmixed). reflexivity.
Qed.

Lemma mixed_order_values_fail_witness :
  run default_config mixed_world =
    (Raise TypeError,
     [Print "Could not sort features. Ensure the 'order_id' field contains sortable values (like numbers)."]).
Proof.
  apply (mixed_order_values_fail default_config mixed_world
           mixed_stops example_network [] []).
  - reflexivity.
  - reflexivity.
  - simpl. now left.
  - intros x Hx. simpl in Hx. destruct Hx as [<-|[<-|[]]]; eexists; reflexivity.
  - exists (stop (PStr "a") 0 0), (stop (PInt 3) 5 5), (PStr "a"), (PInt 3).
    simpl. repeat split; auto.
Defined.

(** X4.  Stops that are read already in ascending order of the order field
    (ties allowed) are left in that order: the loader returns their
    coordinates in read order. *)
Theorem ordered_stops_keep_read_order
  (cfg : Config) (stops_layer : QgsVectorLayer) (t : Trace) :
  In (order_field_name cfg) (fields stops_layer) ->
  keys_present (fun f => getitem f (order_field_name cfg)) (getFeatures stops_layer) ->
  StronglySorted (key_le (fun f => getitem f (order_field_name cfg)))
    (getFeatures stops_layer) ->
  2 <= List.length (getFeatures stops_layer) ->
  load_stops cfg stops_layer t
  = (Ok (map asPoint (getFeatures stops_layer)),
     t ++ [found_notice cfg (getFeatures stops_layer)]).
Proof.
  intros Hf Hpres Hsorted Hlen.
  apply (load_stops_ok cfg stops_layer (getFeatures stops_layer)
           (field_index cfg stops_layer Hf)); [|exact Hlen].
  now apply list_sort_sorted.
Qed.

Lemma ordered_stops_keep_read_order_witness :
  load_stops default_config ordered_stops []
  = (Ok [(10, 0); (0, 0); (5, 5)]%float,
     [Print "Found and sorted 3 stops from layer 'my_stops_points'."]).
Proof.
  apply (ordered_stops_keep_read_order default_config ordered_stops []).
  - simpl. now left.
  - intros x Hx. simpl in Hx.
    destruct Hx as [<-|[<-|[<-|[]]]]; eexists; reflexivity.
  - simpl. repeat constructor; do 2 eexists; repeat split; reflexivity.
  - simpl. lia.
Defined.

(** X5.  When no two stops have the same order value, the sorted sequence
    does not depend on the order in which the layer hands out its
    features: two readings of the same stops sort to the same sequence. *)
Theorem distinct_order_values_fix_the_route
  (cfg : Config) (reading1 reading2 sorted1 sorted2 : list QgsFeature)
  (t1 t2 t1' t2' : Trace) :
  Permutation reading1 reading2 ->
  (forall f g, In f reading1 -> In g reading1 ->
     getitem f (order_field_name cfg) = getitem g (order_field_name cfg) -> f = g) ->
  sort_stops_features cfg reading1 t1 = (Ok sorted1, t1') ->
  sort_stops_features cfg reading2 t2 = (Ok sorted2, t2') ->
  sorted1 = sorted2.
Proof.
  intros Hp Hinj H1 H2.
  apply sort_stops_features_returns in H1, H2.
  destruct H1 as [H1 _], H2 as [H2 _].
  exact (list_sort_read_order _ _ _ _ _ Hp Hinj H1 H2).
Qed.

Lemma distinct_order_values_fix_the_route_witness :
  match fst (sort_stops_features default_config (getFeatures example_stops) []),
        fst (sort_stops_features default_config reread_stops []) with
  | Ok sorted1, Ok sorted2 => sorted1 = sorted2
  | _, _ => False
  end.
Proof.
  cbv [fst sort_stops_features list_sort compute_keys insert_all insert getitem
       lookup_attribute attributes getFeatures example_stops reread_stops stop
       order_field_name default_config py_lt map snd ret String.eqb Ascii.eqb
       Bool.eqb Z.ltb Z.compare Pos.compare Pos.compare_cont].
  apply (distinct_order_values_fix_the_route default_config
           (getFeatures example_stops) reread_stops _ _ [] [] [] []).
  - unfold reread_stops. simpl.
    eapply perm_trans; [apply perm_swap|].
    eapply perm_trans; [apply perm_skip, perm_swap|].
    eapply perm_trans; [apply perm_swap|].
    apply perm_skip, perm_swap.
  - intros f g Hf Hg. simpl in Hf, Hg.
    destruct Hf as [<-|[<-|[<-|[]]]]; destruct Hg as [<-|[<-|[<-|[]]]];
      intros H; try reflexivity; discriminate.
  - reflexivity.
  - reflexivity.
Defined.

(** X6.  In every run whose stops load, whatever the path engine and the
    merge answer, the trace opens with the "Found and sorted" and the
    "Starting" lines and goes on with, for j = 0, 1, ..., k - 1, the
    progress line "Calculating segment j+1: from stop j+1 to stop j+2"
    immediately followed by the request from sorted stop j to sorted stop
    j+1; nothing after that is a path request.  So the requests issued are
    always the first k consecutive pairs, in order, with k <= N - 1: never
    a pair out of order, a pair twice or a pair skipped. *)
Theorem requests_follow_the_stops
  (cfg : Config) (w : World) (stops_layer network_layer : QgsVectorLayer)
  (other_stops other_networks : list QgsVectorLayer) (sorted : list QgsFeature) :
  mapLayersByName w (stops_layer_name cfg) = stops_layer :: other_stops ->
  mapLayersByName w (network_layer_name cfg) = network_layer :: other_networks ->
  In (order_field_name cfg) (fields stops_layer) ->
  list_sort (fun f => getitem f (order_field_name cfg)) (getFeatures stops_layer)
    = Ok sorted ->
  2 <= List.length sorted ->
  exists k tail,
    k <= List.length sorted - 1
    /\ snd (run cfg w)
       = found_notice cfg sorted
         :: Print "Starting multi-stop shortest path calculation..."
         :: flat_map (segment_events w network_layer (crs stops_layer)
                        (map asPoint sorted)) (seq 0 k)
         ++ tail
    /\ path_requests tail = []
    /\ path_requests (snd (run cfg w))
       = map (segment_request w network_layer (crs stops_layer) (map asPoint sorted))
           (seq 0 k).
Proof.
  intros Hs Hn Hf Hsort Hlen.
  destruct (run_loaded_trace cfg w _ _ _ _ sorted Hs Hn Hf Hsort Hlen)
    as (k & tail & Hk & Htr & Htail).
  exists k, tail. repeat split; auto.
  rewrite Htr.
  change (found_notice cfg sorted
          :: Print "Starting multi-stop shortest path calculation..."
          :: flat_map (segment_events w network_layer (crs stops_layer)
                         (map asPoint sorted)) (seq 0 k) ++ tail)
    with ([found_notice cfg sorted;
           Print "Starting multi-stop shortest path calculation..."]
          ++ flat_map (segment_events w network_layer (crs stops_layer)
                         (map asPoint sorted)) (seq 0 k) ++ tail).
  rewrite !path_requests_app, Htail, path_requests_segment_events, app_nil_r.
  reflexivity.
Qed.

Lemma requests_follow_the_stops_witness :
  exists k tail,
    k <= 2
    /\ snd (run default_config broken_world)
       = Print "Found and sorted 3 stops from layer 'my_stops_points'."
         :: Print "Starting multi-stop shortest path calculation..."
         :: flat_map (segment_events broken_world example_network (mkCrs "EPSG:4326")
                        [(10, 0); (0, 0); (5, 5)]%float) (seq 0 k)
         ++ tail
    /\ path_requests tail = [].
Proof.
  destruct (requests_follow_the_stops default_config broken_world
              example_stops example_network [] []
              [stop (PInt 1) 10 0; stop (PInt 2) 0 0; stop (PInt 3) 5 5])
    as (k & tail & Hk & Htr & Htail & _).
  - reflexivity.
  - reflexivity.
  - simpl. now left.
  - reflexivity.
  - simpl. lia.
  - exists k, tail. repeat split; assumption.
Defined.

(** X7.  Consecutive requests of a run chain: the end point of each
    request is the start point of the next one, and every request is put
    to the network layer that the lookup selected.  This holds for every
    answer of the engine. *)
Theorem consecutive_requests_chain
  (cfg : Config) (w : World) (stops_layer network_layer : QgsVectorLayer)
  (other_stops other_networks : list QgsVectorLayer) (sorted : list QgsFeature) :
  mapLayersByName w (stops_layer_name cfg) = stops_layer :: other_stops ->
  mapLayersByName w (network_layer_name cfg) = network_layer :: other_networks ->
  In (order_field_name cfg) (fields stops_layer) ->
  list_sort (fun f => getitem f (order_field_name cfg)) (getFeatures stops_layer)
    = Ok sorted ->
  2 <= List.length sorted ->
  let requests := path_requests (snd (run cfg w)) in
  Forall (fun p => INPUT p = network_layer) requests
  /\ forall i p q,
       nth_error requests i = Some p -> nth_error requests (i + 1) = Some q ->
       END_POINT p = START_POINT q.
Proof.
  intros Hs Hn Hf Hsort Hlen requests.
  destruct (run_loaded_requests cfg w _ _ _ _ sorted Hs Hn Hf Hsort Hlen)
    as (k & Hk & Hreq).
  subst requests. rewrite Hreq. split.
  - apply Forall_forall. intros p Hp. apply in_map_iff in Hp.
    destruct Hp as (j & <- & _). reflexivity.
  - intros i p q Hp Hq. rewrite nth_error_map, nth_error_seq in Hp, Hq.
    destruct (Nat.ltb i k); [|discriminate].
    destruct (Nat.ltb (i + 1) k); [|discriminate].
    cbn [option_map Nat.add] in Hp, Hq. inversion Hp; inversion Hq; subst.
    reflexivity.
Qed.

Lemma consecutive_requests_chain_witness :
  Forall (fun p => INPUT p = example_network)
    (path_requests (snd (run default_config example_world)))
  /\ forall i p q,
       nth_error (path_requests (snd (run default_config example_world))) i = Some p ->
       nth_error (path_requests (snd (run default_config example_world))) (i + 1) = Some q ->
       END_POINT p = START_POINT q.
Proof.
  apply (consecutive_requests_chain default_config example_world
           example_stops example_network [] []
           [stop (PInt 1) 10 0; stop (PInt 2) 0 0; stop (PInt 3) 5 5]).
  - reflexivity.
  - reflexivity.
  - simpl. now left.
  - reflexivity.
  - simpl. lia.
Defined.

(** X8.  The run that succeeds.  When the stops load, the engine answers
    the request of every consecutive pair and the merge answers, the run
    returns normally; its trace is the two opening lines, the events of all
    N - 1 iterations, the "finished" line, the "Merging" line, one merge
    request for the N - 1 collected segments, one [addMapLayer] and the
    closing line.  The segments are the answers the engine gave, in turn,
    to the N - 1 requests; the layer published is the answer the merge
    gave to that request, renamed "Multi-Stop Route (from Layer)" whatever
    its name was, and nothing else is published. *)
Theorem successful_run
  (cfg : Config) (w : World) (stops_layer network_layer : QgsVectorLayer)
  (other_stops other_networks : list QgsVectorLayer) (sorted : list QgsFeature) :
  mapLayersByName w (stops_layer_name cfg) = stops_layer :: other_stops ->
  mapLayersByName w (network_layer_name cfg) = network_layer :: other_networks ->
  In (order_field_name cfg) (fields stops_layer) ->
  list_sort (fun f => getitem f (order_field_name cfg)) (getFeatures stops_layer)
    = Ok sorted ->
  2 <= List.length sorted ->
  (forall j t, j + 1 < List.length sorted ->
     exists l, shortestpathpointtopoint w t
                 (segment_request w network_layer (crs stops_layer)
                    (map asPoint sorted) j) = Ok l) ->
  (forall t p, exists out, mergevectorlayers w t p = Ok out) ->
  exists route_segments out,
    List.length route_segments = List.length sorted - 1
    /\ (forall j l,
          nth_error route_segments j = Some l ->
          shortestpathpointtopoint w
            (request_history cfg w stops_layer network_layer sorted j)
            (segment_request w network_layer (crs stops_layer) (map asPoint sorted) j)
          = Ok l)
    /\ mergevectorlayers w (merge_history cfg w stops_layer network_layer sorted)
         (merge_params_of network_layer route_segments) = Ok out
    /\ run cfg w =
       (Ok tt,
        found_notice cfg sorted
        :: Print "Starting multi-stop shortest path calculation..."
        :: flat_map (segment_events w network_layer (crs stops_layer)
                       (map asPoint sorted)) (seq 0 (List.length sorted - 1))
        ++ Print "...calculation finished."
        :: merge_events network_layer route_segments out)
    /\ published (snd (run cfg w)) = [setName out route_name]
    /\ name (setName out route_name) = "Multi-Stop Route (from Layer)"
    /\ crs (setName out route_name) = crs out
    /\ getFeatures (setName out route_name) = getFeatures out.
Proof.
  intros Hs Hn Hf Hsort Hlen Hok Hmerge.
  destruct (run_loaded_cases cfg w _ _ _ _ sorted Hs Hn Hf Hsort Hlen)
    as [(segs & Hsegs & Hans & Hrun)|(k & e & Hk & _ & Hraise & _)].
  2: { destruct (Hok k (request_history cfg w stops_layer network_layer sorted k))
         as [l Hl]; [lia|]. congruence. }
  destruct segs as [|s segs]; [simpl in Hsegs; lia|].
  rewrite merge_after_plan in Hrun.
  destruct (Hmerge (merge_history cfg w stops_layer network_layer sorted)
              (merge_params_of network_layer (s :: segs))) as [out Hout].
  rewrite Hout in Hrun. exists (s :: segs), out.
  split; [exact Hsegs|]. split; [exact Hans|]. split; [exact Hout|].
  destruct (merge_history_observed cfg w stops_layer network_layer sorted)
    as (_ & _ & Hp).
  split; [|split; [|repeat split]].
  - rewrite Hrun. f_equal. unfold merge_history, merge_events. cbn [app].
    now rewrite <- app_assoc.
  - rewrite Hrun. cbn [snd]. rewrite published_app, Hp. reflexivity.
Qed.

Lemma successful_run_witness :
  fst (run default_config example_world) = Ok tt
  /\ map name (published (snd (run default_config example_world)))
     = ["Multi-Stop Route (from Layer)"].
Proof.
  destruct (successful_run default_config example_world
              example_stops example_network [] []
              [stop (PInt 1) 10 0; stop (PInt 2) 0 0; stop (PInt 3) 5 5])
    as (segs & out & _ & _ & _ & Hrun & Hpub & Hname & _).
  - reflexivity.
  - reflexivity.
  - simpl. now left.
  - reflexivity.
  - simpl. lia.
  - intros j t _. eexists. reflexivity.
  - intros t p. eexists. reflexivity.
  - rewrite Hpub. rewrite Hrun. split; [reflexivity|].
    cbn [map]. now rewrite Hname.
Defined.

(** X9.  When the merge raises after the engine has answered every
    request, the run ends in the exception of the merge, right after the
    merge request: all N - 1 path requests were made, one merge request
    carries the N - 1 segments, and nothing is published. *)
Theorem merge_failure_aborts
  (cfg : Config) (w : World) (stops_layer network_layer : QgsVectorLayer)
  (other_stops other_networks : list QgsVectorLayer) (sorted : list QgsFeature)
  (e : exn) :
  mapLayersByName w (stops_layer_name cfg) = stops_layer :: other_stops ->
  mapLayersByName w (network_layer_name cfg) = network_layer :: other_networks ->
  In (order_field_name cfg) (fields stops_layer) ->
  list_sort (fun f => getitem f (order_field_name cfg)) (getFeatures stops_layer)
    = Ok sorted ->
  2 <= List.length sorted ->
  (forall j t, j + 1 < List.length sorted ->
     exists l, shortestpathpointtopoint w t
                 (segment_request w network_layer (crs stops_layer)
                    (map asPoint sorted) j) = Ok l) ->
  (forall t p, mergevectorlayers w t p = Raise e) ->
  exists route_segments,
    List.length route_segments = List.length sorted - 1
    /\ run cfg w =
       (Raise e,
        found_notice cfg sorted
        :: Print "Starting multi-stop shortest path calculation..."
        :: flat_map (segment_events w network_layer (crs stops_layer)
                       (map asPoint sorted)) (seq 0 (List.length sorted - 1))
        ++ [Print "...calculation finished.";
            Print "Merging route segments...";
            RunMerge (merge_params_of network_layer route_segments)])
    /\ published (snd (run cfg w)) = [].
Proof.
  intros Hs Hn Hf Hsort Hlen Hok Hmerge.
  destruct (run_loaded_planned cfg w _ _ _ _ sorted Hs Hn Hf Hsort Hlen Hok)
    as (segs & Hsegs & Hrun).
  destruct segs as [|s segs]; [simpl in Hsegs; lia|].
  rewrite merge_and_add_unfold in Hrun. cbv zeta in Hrun.
  rewrite Hmerge in Hrun. exists (s :: segs). split; [exact Hsegs|].
  assert (E : run cfg w =
    (Raise e,
     found_notice cfg sorted
     :: Print "Starting multi-stop shortest path calculation..."
     :: flat_map (segment_events w network_layer (crs stops_layer)
                    (map asPoint sorted)) (seq 0 (List.length sorted - 1))
     ++ [Print "...calculation finished.";
         Print "Merging route segments...";
         RunMerge (merge_params_of network_layer (s :: segs))])).
  { rewrite Hrun. f_equal. cbn [app]. rewrite <- !app_assoc. reflexivity. }
  split; [exact E|].
  pose proof (script_publishes_only_on_success cfg w [] e) as Hp.
  unfold run in E. rewrite E in Hp. unfold run. rewrite E. now apply Hp.
Qed.

Lemma merge_failure_aborts_witness :
  fst (run default_config unmerged_world)
  = Raise (QgsProcessingException "merge failed")
  /\ published (snd (run default_config unmerged_world)) = [].
Proof.
  destruct (merge_failure_aborts default_config unmerged_world
              example_stops example_network [] []
              [stop (PInt 1) 10 0; stop (PInt 2) 0 0; stop (PInt 3) 5 5]
              (QgsProcessingException "merge failed"))
    as (segs & _ & Hrun & Hpub).
  - reflexivity.
  - reflexivity.
  - simpl. now left.
  - reflexivity.
  - simpl. lia.
  - intros j t _. eexists. reflexivity.
  - intros t p. reflexivity.
  - rewrite Hrun. split; [reflexivity | exact Hpub].
Defined.

Lemma load_stops_returns cfg stops_layer t coords t' :
  load_stops cfg stops_layer t = (Ok coords, t') ->
  exists sorted,
    indexFromName (fields stops_layer) (order_field_name cfg) <> (-1)%Z
    /\ list_sort (fun f => getitem f (order_field_name cfg)) (getFeatures stops_layer)
       = Ok sorted
    /\ 2 <= List.length sorted
    /\ coords = map asPoint sorted
    /\ t' = t ++ [found_notice cfg sorted].
Proof.
  unfold load_stops.
  destruct (Z.eqb_spec (indexFromName (fields stops_layer) (order_field_name cfg)) (-1))
    as [E|E]; [discriminate|].
  unfold bind at 1.
  destruct (sort_stops_features cfg (getFeatures stops_layer) t)
    as [[fs|e0] t0] eqn:Es; [|discriminate].
  apply sort_stops_features_returns in Es. destruct Es as [Es ->].
  rewrite length_map.
  destruct (Nat.ltb_spec (List.length fs) 2) as [Hlt|Hge]; [discriminate|].
  unfold bind, print, emit, ret. intros H. inversion H; subst.
  exists fs. repeat split; auto.
Qed.

(** X10.  Whatever the project holds and whatever the engine and the
    merge answer, a run sends at most one merge request and publishes at
    most one layer.  Either there is no merge request and nothing is
    published; or there is exactly one merge request, for a non-empty list
    of segments, and then either nothing is published or exactly one layer
    is, under the name "Multi-Stop Route (from Layer)". *)
Theorem at_most_one_route (cfg : Config) (w : World) :
  let t := snd (run cfg w) in
  (merge_requests t = [] /\ published t = [])
  \/ exists network_layer route_segments,
       route_segments <> []
       /\ merge_requests t = [merge_params_of network_layer route_segments]
       /\ (published t = []
           \/ exists out, published t = [setName out route_name]
                          /\ name (setName out route_name)
                             = "Multi-Stop Route (from Layer)").
Proof.
  cbv zeta. destruct (run cfg w) as [r t] eqn:E. cbn [snd].
  unfold run, script in E. unfold bind at 1 in E.
  destruct (find_layers_quiet cfg w []) as [Hm0 Hp0].
  change (merge_requests []) with (@nil MergeParams) in Hm0.
  change (published []) with (@nil QgsVectorLayer) in Hp0.
  destruct (find_layers cfg w []) as [[[sl nl]|e] t0]; cbn [fst snd] in *.
  2: { inversion E; subst. left. split; assumption. }
  unfold route_between_stops in E. unfold bind at 1 in E.
  destruct (load_stops_quiet cfg sl t0) as [Hm1 Hp1].
  destruct (load_stops cfg sl t0) as [[coords|e] t1]; cbn [snd] in *.
  2: { inversion E; subst. left. split; congruence. }
  unfold bind at 1 in E.
  destruct (calculate_route_segments_quiet w sl nl coords t1) as [Hm2 Hp2].
  destruct (calculate_route_segments w sl nl coords t1) as [[segs|e] t2];
    cbn [snd] in *.
  2: { inversion E; subst. left. split; congruence. }
  destruct (merge_and_add_shape w nl segs t2) as (tail & Ht & _ & Hshape).
  rewrite E in Ht. cbn [snd] in Ht. subst t.
  rewrite merge_requests_app, published_app.
  assert (Em : merge_requests t2 = []) by congruence.
  assert (Ep : published t2 = []) by congruence.
  rewrite Em, Ep. cbn [app].
  destruct Hshape as [[Ht Hq]|(Hne & Ht & Hq)]; [left; split; assumption|].
  right. exists nl, segs. split; [exact Hne|]. split; [exact Ht|].
  destruct Hq as [Hq|[out Hq]]; [now left|].
  right. exists out. split; [exact Hq | reflexivity].
Qed.

(** X11.  Once the stops are loaded, the only exceptions that end a run
    are those of the path engine and of the merge, and the call that
    raised is the last event of the trace: after loading, neither the
    script's own statements nor the two subscripts of the loop raise (the
    indices stay within the list of stops). *)
Theorem exceptions_after_loading
  (cfg : Config) (w : World) (stops_layer network_layer : QgsVectorLayer)
  (other_stops other_networks : list QgsVectorLayer)
  (coords : list (float * float)) (t1 : Trace) (e : exn) (t : Trace) :
  mapLayersByName w (stops_layer_name cfg) = stops_layer :: other_stops ->
  mapLayersByName w (network_layer_name cfg) = network_layer :: other_networks ->
  load_stops cfg stops_layer [] = (Ok coords, t1) ->
  run cfg w = (Raise e, t) ->
  (exists t0 p,
     t = t0 ++ [RunShortestPath p] /\ shortestpathpointtopoint w t0 p = Raise e)
  \/ (exists t0 p,
        t = t0 ++ [RunMerge p] /\ mergevectorlayers w t0 p = Raise e).
Proof.
  intros Hs Hn Hload Hrun.
  apply load_stops_returns in Hload.
  destruct Hload as (sorted & Hidx & Hsort & Hlen & _ & _).
  assert (Hf : In (order_field_name cfg) (fields stops_layer)).
  { destruct (in_dec string_dec (order_field_name cfg) (fields stops_layer))
      as [Hin|Hout]; [exact Hin|]. now apply indexFromName_absent in Hout. }
  destruct (run_loaded_cases cfg w _ _ _ _ sorted Hs Hn Hf Hsort Hlen)
    as [(segs & Hsegs & _ & Hcase)|(k & e' & _ & Hcase & Hraise & _)];
    rewrite Hcase in Hrun.
  - destruct segs as [|s segs]; [simpl in Hsegs; lia|].
    rewrite merge_after_plan in Hrun.
    destruct (mergevectorlayers w (merge_history cfg w stops_layer network_layer sorted)
                (merge_params_of network_layer (s :: segs))) as [out|e0] eqn:Em;
      [discriminate|].
    injection Hrun as <- <-. right.
    exists (merge_history cfg w stops_layer network_layer sorted),
      (merge_params_of network_layer (s :: segs)).
    split; [reflexivity | exact Em].
  - injection Hrun as <- <-. left.
    exists (request_history cfg w stops_layer network_layer sorted k),
      (segment_request w network_layer (crs stops_layer) (map asPoint sorted) k).
    split; [reflexivity | exact Hraise].
Qed.

Lemma exceptions_after_loading_witness :
  (exists t0 p,
     snd (run default_config broken_world) = t0 ++ [RunShortestPath p]
     /\ shortestpathpointtopoint broken_world t0 p
        = Raise (QgsProcessingException "no route"))
  \/ (exists t0 p,
        snd (run default_config broken_world) = t0 ++ [RunMerge p]
        /\ mergevectorlayers broken_world t0 p
           = Raise (QgsProcessingException "no route")).
Proof.
  apply (exceptions_after_loading default_config broken_world
           example_stops example_network [] []
           [(10, 0); (0, 0); (5, 5)]%float
           [Print "Found and sorted 3 stops from layer 'my_stops_points'."]).
  - reflexivity.
  - reflexivity.
  - reflexivity.
  - reflexivity.
Defined.

(** X12.  A loader that returns has passed both checks: the order field
    is among the fields of the stops layer and the layer has at least two
    features. *)
Theorem loader_returns_only_if
  (cfg : Config) (stops_layer : QgsVectorLayer) (t t' : Trace)
  (coords : list (float * float)) :
  load_stops cfg stops_layer t = (Ok coords, t') ->
  In (order_field_name cfg) (fields stops_layer)
  /\ 2 <= List.length (getFeatures stops_layer).
Proof.
  intros H. apply load_stops_returns in H.
  destruct H as (sorted & Hidx & Hsort & Hlen & _).
  destruct (list_sort_spec _ _ _ Hsort) as (Hperm & _). split.
  - destruct (in_dec string_dec (order_field_name cfg) (fields stops_layer))
      as [Hin|Hout]; [exact Hin|].
    now apply indexFromName_absent in Hout.
  - now rewrite (Permutation_length Hperm).
Qed.

Lemma loader_returns_only_if_witness :
  In "order_id" (fields example_stops) /\ 2 <= List.length (getFeatures example_stops).
Proof.
  apply (loader_returns_only_if default_config example_stops []
           [Print "Found and sorted 3 stops from layer 'my_stops_points'."]
           [(10, 0); (0, 0); (5, 5)]%float).
  reflexivity.
Defined.

(** X13.  A loader that returns has kept every stop: the coordinates it
    returns are the points of the layer's features, each as often as it was
    read, only rearranged; and the count in the "Found and sorted" line is
    the number of features of the layer. *)
Theorem loader_keeps_every_stop
  (cfg : Config) (stops_layer : QgsVectorLayer) (t t' : Trace)
  (coords : list (float * float)) :
  load_stops cfg stops_layer t = (Ok coords, t') ->
  Permutation (map asPoint (getFeatures stops_layer)) coords
  /\ List.length coords = List.length (getFeatures stops_layer)
  /\ t' = t ++ [Print ("Found and sorted "
                       ++ str_nat (List.length (getFeatures stops_layer))
                       ++ " stops from layer '" ++ stops_layer_name cfg ++ "'.")].
Proof.
  intros H. apply load_stops_returns in H.
  destruct H as (sorted & _ & Hsort & _ & -> & ->).
  destruct (list_sort_spec _ _ _ Hsort) as (Hperm & _).
  split; [now apply Permutation_map|]. split.
  - now rewrite length_map, (Permutation_length Hperm).
  - unfold found_notice. now rewrite (Permutation_length Hperm).
Qed.

Lemma loader_keeps_every_stop_witness :
  Permutation (map asPoint (getFeatures example_stops))
    [(10, 0); (0, 0); (5, 5)]%float.
Proof.
  apply (loader_keeps_every_stop default_config example_stops []
           [Print "Found and sorted 3 stops from layer 'my_stops_points'."]).
  reflexivity.
Defined.

(** X14.  No partial route is merged.  In a run whose stops load:
    (1) when a merge request is sent, everything before it in the trace is
    the complete plan (the two opening lines, the events of all N - 1
    iterations, the "finished" and "Merging" lines), so all N - 1 path
    requests precede it; it carries N - 1 segments, each the answer the
    engine gave to its request; and no request of either kind follows it.
    (2) when the engine raises on the request of some segment [k], having
    answered the earlier ones, the run ends right after that request, in
    that exception, with no merge request and nothing published. *)
Theorem merge_only_after_full_plan
  (cfg : Config) (w : World) (stops_layer network_layer : QgsVectorLayer)
  (other_stops other_networks : list QgsVectorLayer) (sorted : list QgsFeature) :
  mapLayersByName w (stops_layer_name cfg) = stops_layer :: other_stops ->
  mapLayersByName w (network_layer_name cfg) = network_layer :: other_networks ->
  In (order_field_name cfg) (fields stops_layer) ->
  list_sort (fun f => getitem f (order_field_name cfg)) (getFeatures stops_layer)
    = Ok sorted ->
  2 <= List.length sorted ->
  let request :=
    segment_request w network_layer (crs stops_layer) (map asPoint sorted) in
  let history := request_history cfg w stops_layer network_layer sorted in
  (merge_requests (snd (run cfg w)) <> [] ->
   exists route_segments rest,
     snd (run cfg w)
     = merge_history cfg w stops_layer network_layer sorted
       ++ RunMerge (merge_params_of network_layer route_segments) :: rest
     /\ path_requests (merge_history cfg w stops_layer network_layer sorted)
        = map request (seq 0 (List.length sorted - 1))
     /\ List.length route_segments = List.length sorted - 1
     /\ (forall j l, nth_error route_segments j = Some l ->
           shortestpathpointtopoint w (history j) (request j) = Ok l)
     /\ path_requests rest = []
     /\ merge_requests rest = [])
  /\ (forall k e,
        k < List.length sorted - 1 ->
        (forall j, j < k ->
           exists l, shortestpathpointtopoint w (history j) (request j) = Ok l) ->
        shortestpathpointtopoint w (history k) (request k) = Raise e ->
        run cfg w = (Raise e, history k ++ [RunShortestPath (request k)])
        /\ merge_requests (snd (run cfg w)) = []
        /\ published (snd (run cfg w)) = []).
Proof.
  intros Hs Hn Hf Hsort Hlen request history.
  pose proof (run_loaded_cases cfg w _ _ _ _ sorted Hs Hn Hf Hsort Hlen) as Hcases.
  fold request in Hcases. fold history in Hcases. split.
  - intros Hmerge.
    destruct Hcases as [(segs & Hsegs & Hans & Hrun)|(k & e & _ & Hrun & _)].
    + destruct segs as [|s segs]; [simpl in Hsegs; lia|].
      rewrite merge_after_plan in Hrun.
      destruct (merge_history_observed cfg w stops_layer network_layer sorted)
        as (Hreq & _ & _).
      destruct (mergevectorlayers w (merge_history cfg w stops_layer network_layer sorted)
                  (merge_params_of network_layer (s :: segs))) as [out|e0];
        rewrite Hrun; cbn [snd]; exists (s :: segs); eexists;
        (split; [reflexivity|]); repeat split; auto.
    + exfalso. apply Hmerge. rewrite Hrun. cbn [snd].
      apply (request_history_observed cfg w stops_layer network_layer sorted k).
  - intros k e Hk Hok Hraise.
    assert (Hrun : run cfg w = (Raise e, history k ++ [RunShortestPath (request k)])).
    { destruct Hcases as [(segs & Hsegs & Hans & _)|(k' & e' & Hk' & Hrun & Hraise' & Hok')].
      - destruct (nth_error segs k) as [l|] eqn:El.
        + apply Hans in El. congruence.
        + apply nth_error_None in El. lia.
      - destruct (Nat.lt_trichotomy k' k) as [Hlt|[->|Hgt]].
        + destruct (Hok k' Hlt) as [l Hl]. congruence.
        + rewrite Hrun. congruence.
        + destruct (Hok' k Hgt) as [l Hl]. congruence. }
    split; [exact Hrun|]. rewrite Hrun. cbn [snd].
    destruct (request_history_observed cfg w stops_layer network_layer sorted k (request k))
      as (_ & Hm & Hp).
    split; assumption.
Qed.

Lemma merge_only_after_full_plan_witness :
  (exists route_segments rest,
     snd (run default_config example_world)
     = merge_history default_config example_world example_stops example_network
         [stop (PInt 1) 10 0; stop (PInt 2) 0 0; stop (PInt 3) 5 5]
       ++ RunMerge (merge_params_of example_network route_segments) :: rest
     /\ List.length route_segments = 2)
  /\ merge_requests (snd (run default_config broken_world)) = [].
Proof.
  split.
  - destruct (proj1 (merge_only_after_full_plan default_config example_world
                example_stops example_network [] []
                [stop (PInt 1) 10 0; stop (PInt 2) 0 0; stop (PInt 3) 5 5]
                eq_refl eq_refl (or_introl eq_refl) eq_refl (le_S _ _ (le_n 2))))
      as (segs & rest & Htr & _ & Hsegs & _).
    + discriminate.
    + exists segs, rest. split; assumption.
  - apply (proj2 (merge_only_after_full_plan default_config broken_world
             example_stops example_network [] []
             [stop (PInt 1) 10 0; stop (PInt 2) 0 0; stop (PInt 3) 5 5]
             eq_refl eq_refl (or_introl eq_refl) eq_refl (le_S _ _ (le_n 2)))
             1 (QgsProcessingException "no route")).
    + simpl. lia.
    + intros j Hj. assert (j = 0) as -> by lia. eexists. reflexivity.
    + reflexivity.
Defined.
